(** * idb-crawler: the normalisation core of [scripts/idb_export_to_json.mjs]

    A shallow embedding of the export script (generation v7, with the
    classifiers and the [headerPick] of generation v6 beside it) and the
    properties of its text normalisers, row normaliser, deduplicator, retry
    loop and parser of the grid.

    Conventions of the embedding.
    - A JavaScript string is a [string]: a sequence of code units below
      256, the Latin-1 range of UTF-16.  On these [\s], [\d], [trim] and
      [toLowerCase] are the ECMAScript ones; [toUpperCase] is the ECMAScript
      one where its result stays below 256, and has no value elsewhere.
    - A value that is a string or [null] is an [option string].
    - Integers that the script keeps in doubles are exact [Z]; where a double
      can overflow the bound is written out.
    - What the script takes from its host (the digest, the URL parser, the
      engine's free-form date parser, the clock) is a field of [Host]. *)

From Stdlib Require Import ZArith Ascii Lia.
From stdpp Require Import base option list strings gmap pretty.

Local Open Scope Z_scope.

(** ** Strings *)

Definition code (c : ascii) : Z := Z.of_N (N_of_ascii c).
Definition chr (z : Z) : ascii := ascii_of_N (Z.to_N z).

Definition isDigit (c : ascii) : bool := (48 <=? code c) && (code c <=? 57).
Definition isUpper (c : ascii) : bool := (65 <=? code c) && (code c <=? 90).
Definition isLower (c : ascii) : bool := (97 <=? code c) && (code c <=? 122).
(** [\s] and the white space of [trim] below 256: TAB, LF, VT, FF, CR, SPACE
    and NO-BREAK SPACE. *)
Definition isSpace (c : ascii) : bool :=
  ((9 <=? code c) && (code c <=? 13)) || (code c =? 32) || (code c =? 160).

(** The letters of Latin-1 beyond ASCII: capitals from 192 to 222 and small
    letters from 224 to 254, the signs 215 and 247 apart. *)
Definition isLatinUpper (c : ascii) : bool :=
  (192 <=? code c) && (code c <=? 222) && negb (code c =? 215).
Definition isLatinLower (c : ascii) : bool :=
  (224 <=? code c) && (code c <=? 254) && negb (code c =? 247).

Definition lowerChar (c : ascii) : ascii :=
  if isUpper c || isLatinUpper c then chr (code c + 32) else c.

(** The upper case of one code unit: the sharp s (223) becomes [SS]; the
    micro sign (181) and the y with diaeresis (255) have their capitals
    beyond 255. *)
Definition upperChar (c : ascii) : option string :=
  if isLower c || isLatinLower c then Some (String (chr (code c - 32)) EmptyString)
  else if code c =? 223 then Some "SS"
  else if (code c =? 181) || (code c =? 255) then None
  else Some (String c EmptyString).

Fixpoint smap (f : ascii -> ascii) (s : string) : string :=
  match s with
  | EmptyString => EmptyString
  | String c r => String (f c) (smap f r)
  end.

Fixpoint sfilter (p : ascii -> bool) (s : string) : string :=
  match s with
  | EmptyString => EmptyString
  | String c r => if p c then String c (sfilter p r) else sfilter p r
  end.

Fixpoint sforall (p : ascii -> bool) (s : string) : bool :=
  match s with
  | EmptyString => true
  | String c r => p c && sforall p r
  end.

Definition toLowerCase : string -> string := smap lowerChar.

Fixpoint toUpperCase (s : string) : option string :=
  match s with
  | EmptyString => Some EmptyString
  | String c r =>
      match upperChar c, toUpperCase r with
      | Some u, Some us => Some (u +:+ us)
      | _, _ => None
      end
  end.

Definition isEmpty (s : string) : bool :=
  match s with EmptyString => true | _ => false end.

(** JavaScript truthiness of a string. *)
Definition truthy (s : string) : bool := negb (isEmpty s).

Fixpoint trimStart (s : string) : string :=
  match s with
  | String c r => if isSpace c then trimStart r else s
  | EmptyString => EmptyString
  end.

Fixpoint trimEnd (s : string) : string :=
  match s with
  | EmptyString => EmptyString
  | String c r =>
      match trimEnd r with
      | EmptyString => if isSpace c then EmptyString else String c EmptyString
      | r' => String c r'
      end
  end.

Definition trim (s : string) : string := trimEnd (trimStart s).

(** [s.slice(0, n)] *)
Fixpoint slice0 (n : nat) (s : string) : string :=
  match n, s with
  | S k, String c r => String c (slice0 k r)
  | _, _ => EmptyString
  end.

Fixpoint startsWith (p s : string) : bool :=
  match p, s with
  | EmptyString, _ => true
  | String a p', String b s' => Ascii.eqb a b && startsWith p' s'
  | String _ _, EmptyString => false
  end.

(** [/w/.test(s)] for a literal word [w]: [w] occurs somewhere in [s]. *)
Fixpoint includes (w s : string) : bool :=
  startsWith w s ||
  match s with
  | EmptyString => false
  | String _ r => includes w r
  end.

(** [s.split(sep)] for a regular expression matching one code unit in the
    class [sep]; every piece is kept, the empty ones too. *)
Fixpoint splitOn (sep : ascii -> bool) (s : string) : list string :=
  match s with
  | EmptyString => [EmptyString]
  | String c r =>
      if sep c then EmptyString :: splitOn sep r
      else match splitOn sep r with
           | p :: ps => String c p :: ps
           | [] => [String c EmptyString]
           end
  end.

(** [xs.join(sep)] *)
Fixpoint join (sep : string) (xs : list string) : string :=
  match xs with
  | [] => EmptyString
  | [x] => x
  | x :: r => x +:+ sep +:+ join sep r
  end.

(** [a || b] on strings and on nullable strings. *)
Definition orElse (a : option string) (b : string) : string :=
  match a with
  | Some s => if truthy s then s else b
  | None => b
  end.

(** [a || null] *)
Definition orNull (a : option string) : option string :=
  match a with
  | Some s => if truthy s then Some s else None
  | None => None
  end.

(** ** Dates: the ECMAScript time value

    A valid time value is a number of milliseconds since the epoch within
    [±8.64e15]; an Invalid Date is [None]. *)

Definition msPerDay : Z := 86400000.
Definition maxTime : Z := 8640000000000000.

Definition TimeClip (t : Z) : option Z :=
  if Z.abs t <=? maxTime then Some t else None.

Definition DayFromYear (y : Z) : Z :=
  365 * (y - 1970) + (y - 1969) / 4 - (y - 1901) / 100 + (y - 1601) / 400.

Definition InLeapYear (y : Z) : bool :=
  ((y mod 4 =? 0) && negb (y mod 100 =? 0)) || (y mod 400 =? 0).

(** Days of the year that precede month [m] (0 = January). *)
Definition daysBeforeMonth (leap : bool) (m : Z) : Z :=
  let l := if leap then 1 else 0 in
  match m with
  | 0 => 0 | 1 => 31 | 2 => 59 + l | 3 => 90 + l | 4 => 120 + l
  | 5 => 151 + l | 6 => 181 + l | 7 => 212 + l | 8 => 243 + l
  | 9 => 273 + l | 10 => 304 + l | _ => 334 + l
  end.

(** [MakeDay(year, month, date)]: months beyond the year carry into it, the
    date counts on from the first of the month. *)
Definition MakeDay (year month date : Z) : Z :=
  let ym := year + month / 12 in
  let mn := month mod 12 in
  DayFromYear ym + daysBeforeMonth (InLeapYear ym) mn + date - 1.

(** The year [Date.UTC] takes [y] to mean: from 0 to 99 it is 1900 + [y]. *)
Definition fullYear (y : Z) : Z := if (0 <=? y) && (y <=? 99) then 1900 + y else y.

(** [Date.UTC(y, m, d)] *)
Definition Date_UTC (y m d : Z) : option Z :=
  TimeClip (MakeDay (fullYear y) m d * msPerDay).

(** [YearFromTime], [MonthFromTime] and [DateFromTime] of a day number, in
    closed form: the proleptic Gregorian date, months counted from 1.  The
    day number is split into its 400-year era and the day within the era. *)
Definition civilOfEra (era doe : Z) : Z * Z * Z :=
  let yoe := (doe - doe / 1460 + doe / 36524 - doe / 146096) / 365 in
  let doy := doe - (365 * yoe + yoe / 4 - yoe / 100) in
  let mp := (5 * doy + 2) / 153 in
  let d := doy - (153 * mp + 2) / 5 + 1 in
  let m := if mp <? 10 then mp + 3 else mp - 9 in
  let y := yoe + era * 400 + (if m <=? 2 then 1 else 0) in
  (y, m, d).

Definition civilFromDays (day : Z) : Z * Z * Z :=
  let z := day + 719468 in
  civilOfEra (z / 146097) (z mod 146097).

Definition digitChar (k : Z) : ascii := chr (48 + k mod 10).

(** The [w] low decimal digits of [n], most significant first. *)
Fixpoint pad (w : nat) (n : Z) : string :=
  match w with
  | O => EmptyString
  | S k => pad k (n / 10) +:+ String (digitChar n) EmptyString
  end.

(** [toISOString()] of a valid time value: four-digit years from 0 to 9999,
    six digits with a sign otherwise. *)
Definition toISOString (t : Z) : string :=
  let ms := t mod msPerDay in
  let '(y, m, d) := civilFromDays (t / msPerDay) in
  let ys := if (0 <=? y) && (y <=? 9999) then pad 4 y
            else (if y <? 0 then "-" else "+") +:+ pad 6 (Z.abs y) in
  ys +:+ "-" +:+ pad 2 m +:+ "-" +:+ pad 2 d +:+ "T" +:+
  pad 2 (ms / 3600000) +:+ ":" +:+ pad 2 (ms / 60000 mod 60) +:+ ":" +:+
  pad 2 (ms / 1000 mod 60) +:+ "." +:+ pad 3 (ms mod 1000) +:+ "Z".


(** ** Completions: a value or a thrown exception *)

Inductive exn :=
  | RangeError (msg : string)
  | Error (msg : string).

Inductive completion (A : Type) :=
  | Return (a : A)
  | Throw (e : exn).
Arguments Return {A} a.
Arguments Throw {A} e.

Global Instance completion_ret : MRet completion := fun A a => Return a.
Global Instance completion_bind : MBind completion := fun A B f m =>
  match m with
  | Return a => f a
  | Throw e => Throw e
  end.

(** A [Date] object holds a time value or is an Invalid Date.
    [toISOString] raises a [RangeError] on an Invalid Date. *)
Definition Date_toISOString (dt : option Z) : completion string :=
  match dt with
  | Some t => Return (toISOString t)
  | None => Throw (RangeError "Invalid time value")
  end.

(** ** Numbers *)

(** The doubles the script meets: [Finite m k] stands for the double nearest
    to [m / 10^k]. *)
Inductive number :=
  | NaN
  | Infinity
  | Finite (mant : Z) (scale : nat).

(** Decimal values from [2^1024 - 2^970] on round to [Infinity]. *)
Definition doubleLimit : Z := 2 ^ 1024 - 2 ^ 970.

Definition roundDouble (m : Z) (k : nat) : number :=
  if doubleLimit * 10 ^ Z.of_nat k <=? Z.abs m then Infinity else Finite m k.

Definition Number_isFinite (n : number) : bool :=
  match n with Finite _ _ => true | _ => false end.

Fixpoint digitsValue (acc : Z) (s : string) : Z :=
  match s with
  | EmptyString => acc
  | String c r => digitsValue (acc * 10 + (code c - 48)) r
  end.

(** The longest prefix of [s] in the class [p], and what follows it. *)
Fixpoint span (p : ascii -> bool) (s : string) : string * string :=
  match s with
  | EmptyString => (EmptyString, EmptyString)
  | String c r =>
      if p c then let '(a, b) := span p r in (String c a, b)
      else (EmptyString, s)
  end.

(** [parseInt(p, 10)]: leading white space, an optional sign, then the
    longest run of decimal digits; [NaN] when there is no digit. *)
Definition parseInt10 (p : string) : number :=
  let t := trimStart p in
  let '(neg, u) :=
    match t with
    | String "-" r => (true, r)
    | String "+" r => (false, r)
    | _ => (false, t)
    end in
  let '(ds, _) := span isDigit u in
  if isEmpty ds then NaN
  else roundDouble (if neg then - digitsValue 0 ds else digitsValue 0 ds) 0.

(** [Number(s)] for [s] over the alphabet [0-9.], which is all that [toNum]
    passes: the empty string is 0, [digits], [digits.], [digits.digits] and
    [.digits] are decimal literals, anything else is [NaN]. *)
Definition Number (s : string) : number :=
  if isEmpty s then Finite 0 0
  else
    let '(ip, rest) := span isDigit s in
    match rest with
    | EmptyString => roundDouble (digitsValue 0 ip) 0
    | String "." fp =>
        if sforall isDigit fp && negb (isEmpty ip && isEmpty fp)
        then roundDouble (digitsValue 0 (ip +:+ fp)) (String.length fp)
        else NaN
    | _ => NaN
    end.

(** ** The host *)

Record URLParts := { pathname : string; searchParams : string }.

Record Host := {
  (** [crypto.createHash("sha256").update(s).digest("hex")] *)
  sha256 : string -> string;
  (** [new URL(s)]; [None] when it throws *)
  URL_parse : string -> option URLParts;
  (** [new Date(s)] on a string, the engine's own parser *)
  Date_parse : string -> option Z;
  (** the successive readings of the clock by [new Date()] *)
  clock : nat -> Z
}.

(** ** Configuration *)

Definition PAGE_URL : string := "https://projectprocurement.iadb.org/en/procurement-notices".
Definition PAGE_LOAD_WAIT_MS : Z := 5000.
Definition RETRIES : nat := 3.

(** ** Utils *)

Definition isDateSep (c : ascii) : bool := Ascii.eqb c "/" || isSpace c.

Definition replaceChar (a b : ascii) : string -> string :=
  smap (fun c => if Ascii.eqb c a then b else c).

(** The numbers that pass [Number.isFinite], as integers.  A double beyond
    2^53 is not the integer written, but a date component that large puts
    the date outside the time range whichever of the two is taken. *)
Definition finiteInts (ns : list number) : list Z :=
  omap (fun n => match n with Finite m _ => Some m | _ => None end) ns.

(** The order of year, month and day among the first three numbers. *)
Definition resolveYMD (a b c : Z) : Z * Z * Z :=
  if (1900 <? a) && (a <=? 2100) then (a, b, c)
  else if 12 <? a then (c, b, a)
  else if 12 <? b then (c, a, b)
  else (c, b, a).

Definition genericDate (h : Host) (s : string) : completion (option string) :=
  let dt2 := Date_parse h s in
  if bool_decide (is_Some dt2)
  then iso ← Date_toISOString dt2; mret (Some (slice0 10 iso))
  else mret None.

(** [s]: the trimmed text with every dot and dash turned into a slash. *)
Definition dateText (r : string) : string :=
  replaceChar "-" "/" (replaceChar "." "/" (trim r)).

(** [nums]: the pieces between slashes and white space that start with an
    integer. *)
Definition dateNums (s : string) : list Z :=
  let parts := filter (fun p => truthy p) (splitOn isDateSep s) in
  finiteInts (parseInt10 <$> parts).

Definition toISO (h : Host) (raw : option string) : completion (option string) :=
  match raw with
  | None => mret None
  | Some r =>
      if negb (truthy r) then mret None
      else
        let s := dateText r in
        match dateNums s with
        | a :: b :: c :: _ =>
            let '(y, m, d) := resolveYMD a b c in
            let dt := Date_UTC y (m - 1) d in
            if bool_decide (is_Some dt)
            then iso ← Date_toISOString dt; mret (Some (slice0 10 iso))
            else genericDate h s
        | _ => genericDate h s
        end
  end.

Definition isDigitOrDot (c : ascii) : bool := isDigit c || Ascii.eqb c ".".

Definition toNum (v : option string) : option number :=
  match v with
  | None => None
  | Some s =>
      let n := Number (sfilter isDigitOrDot s) in
      if Number_isFinite n then Some n else None
  end.

Definition anyWord (ws : list string) (t : string) : bool :=
  existsb (fun w => includes w t) ws.

Definition inferSectors (title : string) : list string :=
  let t := toLowerCase title in
  if anyWord ["energy"; "power"; "electric"] t then ["Energy"]
  else if anyWord ["road"; "rail"; "transport"] t then ["Transport"]
  else if anyWord ["water"; "waste"] t then ["Water"]
  else if anyWord ["ict"; "digital"] t then ["ICT"]
  else ["Other"].

Definition classifyType (s : string) : string :=
  let t := toLowerCase s in
  if anyWord ["expression of interest"; "reoi"] t then "REOI"
  else if anyWord ["invitation to bid"; "rfb"; "itb"] t then "RFB/ITB"
  else if anyWord ["request for proposals"; "rfp"] t then "RFP"
  else if anyWord ["general procurement notice"; "gpn"] t then "GPN"
  else if anyWord ["award"] t then "Award"
  else orElse (Some s) "Other".

Definition classifyCategory (s : string) : string :=
  let t := toLowerCase s in
  if anyWord ["works"] t then "Works"
  else if anyWord ["goods"; "supply"] t then "Goods"
  else if anyWord ["consult"] t then "Consulting"
  else orElse (Some s) "Other".

(** The classifiers of the earlier generation of the script (v6). *)
Module V6.
Definition classifyType (s : string) : string :=
  let t := toLowerCase s in
  if anyWord ["expression of interest"; "reoi"] t then "REOI"
  else if anyWord ["invitation to bid"; "rfb"; "itb"] t then "RFB/ITB"
  else if anyWord ["request for proposals"; "rfp"] t then "RFP"
  else if anyWord ["general procurement notice"; "gpn"] t then "GPN"
  else if anyWord ["award"] t then "Award"
  else "Other".

Definition classifyCategory (s : string) : string :=
  let t := toLowerCase s in
  if anyWord ["works"] t then "Works"
  else if anyWord ["goods"; "supply"] t then "Goods"
  else if anyWord ["consult"] t then "Consulting"
  else "Other".
End V6.

(** A property read from an object literal: one of its own, or one that every
    object inherits from [Object.prototype] (a function or an object). *)
Inductive member :=
  | Own (v : string)
  | Inherited (name : string).

Definition objectPrototypeNames : list string :=
  ["constructor"; "hasOwnProperty"; "isPrototypeOf"; "propertyIsEnumerable";
   "toLocaleString"; "toString"; "valueOf"; "__proto__"; "__defineGetter__";
   "__defineSetter__"; "__lookupGetter__"; "__lookupSetter__"].

Definition countryTable : list (string * string) :=
  [("Argentina", "AR"); ("Brazil", "BR"); ("Chile", "CL"); ("Colombia", "CO");
   ("Costa Rica", "CR"); ("Dominican Republic", "DO"); ("Ecuador", "EC");
   ("El Salvador", "SV"); ("Guatemala", "GT"); ("Haiti", "HT");
   ("Honduras", "HN"); ("Jamaica", "JM"); ("Mexico", "MX"); ("Nicaragua", "NI");
   ("Panama", "PA"); ("Paraguay", "PY"); ("Peru", "PE"); ("Uruguay", "UY");
   ("Trinidad and Tobago", "TT"); ("Barbados", "BB"); ("Belize", "BZ");
   ("Bolivia", "BO"); ("Guyana", "GY"); ("Suriname", "SR"); ("Bahamas", "BS")].

Fixpoint assoc (k : string) (l : list (string * string)) : option string :=
  match l with
  | [] => None
  | (k', v) :: r => if String.eqb k k' then Some v else assoc k r
  end.

(** [M[String(name).trim()] ?? null]; every code in the table is a non-empty
    string, so the [|| null] of the caller changes nothing. *)
Definition mapCountryToISO2 (name : string) : option member :=
  let k := trim name in
  match assoc k countryTable with
  | Some v => Some (Own v)
  | None => if bool_decide (k ∈ objectPrototypeNames) then Some (Inherited k) else None
  end.

Definition isSlugChar (c : ascii) : bool :=
  isLower c || isUpper c || isDigit c ||
  Ascii.eqb c "-" || Ascii.eqb c "_" || Ascii.eqb c ".".

Definition stableIdFromURLorTitle (h : Host) (url : option string) (title : string) : string :=
  match orNull url with
  | Some u =>
      match URL_parse h u with
      | Some parts =>
          let segs := filter (fun p => truthy p)
                        (splitOn (fun c => Ascii.eqb c "/") (pathname parts)) in
          let lastSeg := orElse (Some (orElse (last segs) (searchParams parts))) u in
          orElse (Some (slice0 80 (sfilter isSlugChar lastSeg))) (slice0 16 (sha256 h u))
      | None => slice0 16 (sha256 h u)
      end
  | None => slice0 16 (sha256 h (orElse (Some title) ""))
  end.

(** ** Rows *)

(** A row of the table: header label to cell text.  The cells are strings,
    so [row[k] != null] holds of every key the row has. *)
Abbreviation RawRow := (gmap string string).

(** [k in row && row[k] != null && String(row[k]).trim() !== ""], for a key
    [k] that is not the name of a member of [Object.prototype]: those are
    [in] every row.  [normalizeRows] asks for no such key
    ([normalizeRow_reads_own_names]). *)
Definition usable (row : RawRow) (k : string) : bool :=
  match row !! k with
  | Some v => truthy (trim v)
  | None => false
  end.

(** The same under the upper case of [k]; a key beyond the code units of
    the rows is in no row. *)
Definition usableUpper (row : RawRow) (k : string) : bool :=
  match toUpperCase k with
  | Some ku => usable row ku
  | None => false
  end.

Definition getUpper (row : RawRow) (k : string) : option string :=
  match toUpperCase k with
  | Some ku => row !! ku
  | None => None
  end.

(** Pick first non-empty among keys: the key as written, then in upper
    case, then in lower case. *)
Fixpoint headerPick (row : RawRow) (keys : list string) : option string :=
  match keys with
  | [] => None
  | k :: ks =>
      if usable row k then row !! k
      else if usableUpper row k then getUpper row k
      else if usable row (toLowerCase k) then row !! toLowerCase k
      else headerPick row ks
  end.

Record CanonicalRecord := {
  id : string;
  source : string;
  noticeId : option string;
  projectId : option string;
  projectName : option string;
  title : string;
  summary_original : option string;
  summary_ko : option string;
  countryName : option string;
  country : option member;
  sector : list string;
  category : string;
  method : option string;
  noticeType : string;
  currency : option string;
  budgetEstimate : option number;
  publicationDate : option string;
  deadline : option string;
  buyer : option string;
  city : option string;
  language : list string;
  url : string;
  documents : list string;
  lastSeenAt : string;
  hash : string
}.

(** The text that is hashed: the four salient fields joined by a bar. *)
Definition hashInput (title : string) (countryName deadline : option string) (url : string) : string :=
  join "|" [title; orElse countryName ""; orElse deadline ""; url].

(** The body of the [map] in [normalizeRows]; [now] is the clock reading
    taken for this row. *)
Definition normalizeRow (h : Host) (now : Z) (r : RawRow) : completion CanonicalRecord :=
  let title := headerPick r ["Notice Title"; "Title"] in
  let url := headerPick r ["URL"; "Link"; "Notice URL"] in
  let countryName := headerPick r ["Country"] in
  let noticeType := headerPick r ["Type"; "Notice Type"] in
  let projName := headerPick r ["Project Name"; "Project"] in
  let projNo := headerPick r ["Project Number"; "Project ID"] in
  let pub := headerPick r ["Publication Date"; "Posted"] in
  let due := headerPick r ["Due Date"; "Deadline"; "Closing Date"] in
  let buyer := headerPick r ["Executing Agency"; "Buyer"; "Agency"] in
  let category := headerPick r ["Category"] in
  let method := headerPick r ["Method"] in
  let currency := orNull (headerPick r ["Currency"]) in
  let budget := orNull (headerPick r ["Budget"; "Estimate"]) in
  let titleSafe := orElse (Some (trim (orElse title ""))) "(untitled)" in
  let id := "IDB:" +:+ stableIdFromURLorTitle h url titleSafe in
  publicationDate ← toISO h pub;
  deadline ← toISO h due;
  let countryName' := orNull countryName in
  let url' := orElse url PAGE_URL in
  mret {|
    id := id;
    source := "IDB";
    noticeId := splitOn (fun c => Ascii.eqb c ":") id !! 1%nat;
    projectId := orNull projNo;
    projectName := orNull projName;
    title := titleSafe;
    summary_original := None;
    summary_ko := None;
    countryName := countryName';
    country := mapCountryToISO2 (orElse countryName "");
    sector := inferSectors titleSafe;
    category := orElse (Some (trim (orElse category "")))
                  (classifyCategory (orElse noticeType ""));
    method := orNull method;
    noticeType := classifyType (orElse noticeType "");
    currency := currency;
    budgetEstimate := toNum budget;
    publicationDate := publicationDate;
    deadline := deadline;
    buyer := orNull buyer;
    city := None;
    language := ["en"];
    url := url';
    documents := [];
    lastSeenAt := toISOString now;
    hash := sha256 h (hashInput titleSafe countryName' deadline url')
  |}.

(** [rows.map(...)], the [i]-th row taking the [i]-th clock reading from
    [i0] on; an exception in a row ends the map. *)
Fixpoint mapRows (h : Host) (i0 : nat) (rows : list RawRow) : completion (list CanonicalRecord) :=
  match rows with
  | [] => mret []
  | r :: rest =>
      x ← normalizeRow h (clock h i0) r;
      xs ← mapRows h (S i0) rest;
      mret (x :: xs)
  end.

(** [.filter(x => x.title && x.url)] *)
Definition retained (x : CanonicalRecord) : bool := truthy (title x) && truthy (url x).

Definition normalizeRows (h : Host) (rows : list RawRow) : completion (list CanonicalRecord) :=
  xs ← mapRows h 0 rows; mret (filter (fun x => retained x) xs).

(** ** Deduplication *)

(** A JavaScript [Map] with string keys: the entries in insertion order. *)
Definition JsMap (V : Type) := list (string * V).

Definition Map_has {V} (m : JsMap V) (k : string) : bool :=
  existsb (fun e => String.eqb (fst e) k) m.

(** [m.set(k, v)] for a key that [m] may hold already: the value is replaced
    in place, a new key goes last. *)
Fixpoint Map_set {V} (m : JsMap V) (k : string) (v : V) : JsMap V :=
  match m with
  | [] => [(k, v)]
  | (k', v') :: r => if String.eqb k' k then (k', v) :: r else (k', v') :: Map_set r k v
  end.

Definition Map_values {V} (m : JsMap V) : list V := snd <$> m.

Definition dedupKey (n : CanonicalRecord) : string := id n +:+ ":" +:+ hash n.

Definition dedupeByIdHash (arr : list CanonicalRecord) : list CanonicalRecord :=
  Map_values
    (fold_left (fun m n => let k := dedupKey n in
                           if negb (Map_has m k) then Map_set m k n else m)
               arr []).

(** ** Effects *)

(** What a run leaves behind: the sleeps of the script, the screenshots and
    the sample of headers of the parser, the two output files, the closing
    line of the log, the closing of the browser and the error that is
    printed.  [Screenshot] is the call of [screenshot({path})], whose own
    failure the parser swallows; [LogHeaders row] is the printing of the
    keys of [row].  The waits of Playwright inside [waitForPowerBiGrid] and
    [nudgeRender] are not calls of [sleep] and leave nothing. *)
Inductive effect :=
  | Sleep (ms : Z)
  | Screenshot (path : string)
  | LogHeaders (row : RawRow)
  | WriteFile (path : string) (notices : list CanonicalRecord)
  | LogOK (count : nat)
  | BrowserClose
  | ConsoleError (e : exn).

(** A procedure: the effects it has had, and how it completed. *)
Record proc (A : Type) := Proc { trace : list effect; outcome : completion A }.
Arguments Proc {A} trace outcome.
Arguments trace {A} p.
Arguments outcome {A} p.

Global Instance proc_ret : MRet proc := fun A a => Proc [] (Return a).
Global Instance proc_bind : MBind proc := fun A B f m =>
  match outcome m with
  | Return a => let r := f a in Proc (trace m ++ trace r) (outcome r)
  | Throw e => Proc (trace m) (Throw e)
  end.

Definition perform (e : effect) : proc unit := Proc [e] (Return tt).
Definition throw {A} (e : exn) : proc A := Proc [] (Throw e).
Definition lift {A} (c : completion A) : proc A := Proc [] c.

(** ** The parser *)

(** [s.replace(/\s+/g, " ")]: every run of whitespace becomes one space;
    [inRun] tells that the character before was whitespace. *)
Fixpoint collapseFrom (inRun : bool) (s : string) : string :=
  match s with
  | EmptyString => EmptyString
  | String c r =>
      if isSpace c
      then if inRun then collapseFrom true r else String " " (collapseFrom true r)
      else String c (collapseFrom false r)
  end.

(** The text of a header cell and of a data cell; [raw] is what
    [innerText().catch(()=>"")] gave. *)
Definition headerText (raw : string) : string := trim raw.
Definition cellText (raw : string) : string := collapseFrom false (trim raw).

(** [h || `col_${idx}`] *)
Definition columnKey (h : string) (idx : nat) : string :=
  orElse (Some h) ("col_" +:+ pretty idx).

(** [obj[k] = v] on an object literal for a string [v]: the key [__proto__]
    is the accessor of [Object.prototype], which ignores a string. *)
Definition setProperty (obj : RawRow) (k v : string) : RawRow :=
  if String.eqb k "__proto__" then obj else <[k := v]> obj.

(** [headers.forEach((h,idx) => obj[h || `col_${idx}`] = vals[idx] ?? "")],
    from index [idx] on. *)
Fixpoint assignCells (obj : RawRow) (idx : nat) (headers vals : list string) : RawRow :=
  match headers with
  | [] => obj
  | h :: hs =>
      assignCells (setProperty obj (columnKey h idx) (default "" (vals !! idx))) (S idx) hs vals
  end.

Definition rowObject (headers vals : list string) : RawRow := assignCells ∅ 0 headers vals.

(** What the locators of one frame give: the texts of the column headers, of
    the cells of the first row, and of the cells of every row; a row whose
    cells cannot be listed has none. *)
Record FrameView := {
  headerCells : list string;
  firstRowCells : list string;
  rowLocs : list (list string)
}.

Definition headersOf (fr : FrameView) : list string :=
  let headers := headerText <$> headerCells fr in
  if bool_decide (headers = []) then headerText <$> firstRowCells fr else headers.

(** The body of the loop over the rows: the record of one row, if any. *)
Definition rowRecord (headers cells : list string) : option RawRow :=
  if bool_decide (cells = []) then None
  else let vals := cellText <$> cells in
       if existsb truthy vals then Some (rowObject headers vals) else None.

Definition frameRecs (fr : FrameView) : list RawRow :=
  omap (rowRecord (headersOf fr)) (drop 1 (rowLocs fr)).

(** A frame: what its locators give, or nothing when one of them throws,
    and the frames nested in it. *)
#[local] Unset Elimination Schemes.
Inductive Frame := MkFrame (view : option FrameView) (children : list Frame).

#[local] Set Elimination Schemes.

Definition view (f : Frame) : option FrameView := let (v, _) := f in v.
Definition childFrames (f : Frame) : list Frame := let (_, c) := f in c.

(** The frames that are explored: the root, its children and theirs. *)
Definition frames (rootFrame : Frame) : list Frame :=
  rootFrame :: childFrames rootFrame ++ (childFrames rootFrame ≫= childFrames).

(** The loop over the frames, from [frs] on: what it returns. *)
Fixpoint parseFrames (frs : list Frame) : list RawRow :=
  match frs with
  | [] => []
  | fr :: later =>
      match view fr with
      | Some v =>
          let recs := frameRecs v in
          if negb (bool_decide (recs = [])) then recs else parseFrames later
      | None => parseFrames later
      end
  end.

Definition parseAccessibleTable (rootFrame : Frame) : list RawRow :=
  parseFrames (frames rootFrame).

(** The same loop with what it leaves behind, from the frame of index [i]
    on: the keys of the first row are printed before the rows are
    returned, and a frame read without a row is photographed to
    [debug/fallback-grid-<i>.png].  A frame whose locators throw leaves
    nothing.  The rows returned are those of [parseFrames]
    ([parseFramesIO_returns]). *)
Fixpoint parseFramesIO (i : nat) (frs : list Frame) : proc (list RawRow) :=
  match frs with
  | [] => mret []
  | fr :: later =>
      match view fr with
      | Some v =>
          match frameRecs v with
          | first :: rest => perform (LogHeaders first);; mret (first :: rest)
          | [] =>
              perform (Screenshot ("debug/fallback-grid-" +:+ pretty i +:+ ".png"));;
              parseFramesIO (S i) later
          end
      | None => parseFramesIO (S i) later
      end
  end.

Definition parseAccessibleTableIO (rootFrame : Frame) : proc (list RawRow) :=
  parseFramesIO 0 (frames rootFrame).

(** ** The orchestrator *)

(** What one run observes of the page once it is open: whether the Power BI
    frame is found, what [waitForPowerBiGrid] returns in a given attempt,
    and the frame as [parseAccessibleTable] meets it in that attempt. *)
Record Page := {
  powerBIFrame : bool;
  gridReady : nat -> bool;
  frameAt : nat -> Frame
}.

(** The rows that the parser returns in a given attempt. *)
Definition tableRows (page : Page) (attempt : nat) : list RawRow :=
  parseAccessibleTable (frameAt page attempt).

(** What can fail at the end of a run: the writing of a file under a given
    path, and the closing of the browser. *)
Record Failures := {
  writeFails : string -> option exn;
  closeFails : option exn
}.

(** [fs.writeFileSync(path, JSON.stringify(notices,null,2))] *)
Definition writeFileSync (env : Failures) (path : string) (notices : list CanonicalRecord)
  : proc unit :=
  match writeFails env path with
  | Some e => throw e
  | None => perform (WriteFile path notices)
  end.

(** [await browser.close()] *)
Definition browserClose (env : Failures) : proc unit :=
  match closeFails env with
  | Some e => throw e
  | None => perform BrowserClose
  end.

(** The body of [for (let attempt = 1; attempt <= RETRIES; attempt++)], over
    the attempts still to run. *)
Fixpoint retryLoop (page : Page) (attempts : list nat) (rawRows : list RawRow)
  : proc (list RawRow) :=
  match attempts with
  | [] => mret rawRows
  | attempt :: later =>
      if negb (gridReady page attempt) then
        if bool_decide (attempt = RETRIES)
        then throw (Error "Power BI grid not visible after waiting")
        else perform (Sleep (1500 * Z.of_nat attempt));; retryLoop page later rawRows
      else
        rawRows ← parseAccessibleTableIO (frameAt page attempt);
        if negb (bool_decide (rawRows = [])) then mret rawRows
        else
          (if bool_decide (attempt < RETRIES)%nat
           then perform (Sleep (1500 * Z.of_nat attempt)) else mret tt);;
          retryLoop page later rawRows
  end.

Definition run (h : Host) (env : Failures) (page : Page) : proc unit :=
  perform (Sleep PAGE_LOAD_WAIT_MS);;
  (if powerBIFrame page then mret tt
   else throw (Error "Power BI iframe not found (embed may be slow)"));;
  rawRows ← retryLoop page (seq 1 RETRIES) [];
  normalized ← lift (normalizeRows h rawRows);
  let notices := dedupeByIdHash normalized in
  let today := slice0 10 (toISOString (clock h (length rawRows))) in
  writeFileSync env "data/notices.json" notices;;
  writeFileSync env ("data/notices-" +:+ today +:+ ".json") notices;;
  perform (LogOK (length notices));;
  browserClose env.

(** The process: the effects of the run and the exit code.  A rejection of
    the run is printed and exits with 1. *)
Definition main (h : Host) (env : Failures) (page : Page) : list effect * Z :=
  let p := run h env page in
  match outcome p with
  | Return _ => (trace p, 0)
  | Throw e => (trace p ++ [ConsoleError e], 1)
  end.

(** The [headerPick] of the earlier generation of the script (v6). *)
Module V6Rows.
(** [row[key] ?? row[key.toUpperCase()] ?? row[key.toLowerCase()]] *)
Definition headerPick (row : RawRow) (key : string) : option string :=
  match row !! key with
  | Some v => Some v
  | None =>
      match getUpper row key with
      | Some v => Some v
      | None => row !! toLowerCase key
      end
  end.
End V6Rows.

(** * Properties *)

(** A host that recognises nothing: its date parser finds every text
    invalid, its URL parser rejects every text, and its digest is the text
    itself, so no two texts collide. *)
Definition bareHost : Host :=
  {| sha256 := fun s => s;
     URL_parse := fun _ => None;
     Date_parse := fun _ => None;
     clock := fun _ => 0 |}.

(** ** Texts *)

Lemma append_nil_l (t : string) : "" +:+ t = t.
Proof. reflexivity. Qed.

Lemma append_cons c (s t : string) : String c s +:+ t = String c (s +:+ t).
Proof. reflexivity. Qed.

(** ** The calendar *)

(** The number of days of month [m] (1 = January). *)
Definition daysInMonth (leap : bool) (m : Z) : Z :=
  match m with
  | 2 => if leap then 29 else 28
  | 4 | 6 | 9 | 11 => 30
  | _ => 31
  end.

(** [d] is a day of month [m] (1 = January) of year [y]. *)
Definition inCalendar (y m d : Z) : bool :=
  (1 <=? m) && (m <=? 12) && (1 <=? d) && (d <=? daysInMonth (InLeapYear y) m).

Lemma DayFromYear_shift y k : DayFromYear (y + 400 * k) = DayFromYear y + 146097 * k.
Proof. unfold DayFromYear. Z.div_mod_to_equations. lia. Qed.

Lemma InLeapYear_shift y k : InLeapYear (y + 400 * k) = InLeapYear y.
Proof.
  unfold InLeapYear.
  replace ((y + 400 * k) mod 4) with (y mod 4) by (Z.div_mod_to_equations; lia).
  replace ((y + 400 * k) mod 100) with (y mod 100) by (Z.div_mod_to_equations; lia).
  replace ((y + 400 * k) mod 400) with (y mod 400) by (Z.div_mod_to_equations; lia).
  reflexivity.
Qed.

Lemma MakeDay_shift y k m d : MakeDay (y + 400 * k) m d = MakeDay y m d + 146097 * k.
Proof.
  unfold MakeDay.
  replace (y + 400 * k + m / 12) with (y + m / 12 + 400 * k) by lia.
  rewrite DayFromYear_shift, InLeapYear_shift. lia.
Qed.

Lemma civilFromDays_shift z k :
  civilFromDays (z + 146097 * k)
  = let '(y, m, d) := civilFromDays z in (y + 400 * k, m, d).
Proof.
  unfold civilFromDays. cbv zeta.
  replace (z + 146097 * k + 719468) with (z + 719468 + k * 146097) by lia.
  rewrite Z.div_add, Z.mod_add by lia.
  unfold civilOfEra. cbv zeta. f_equal. f_equal. lia.
Qed.

Lemma daysInMonth_le leap m : daysInMonth leap m <= 31.
Proof.
  unfold daysInMonth. destruct leap;
    repeat match goal with
           | |- context [match ?x with _ => _ end] => destruct x
           end; lia.
Qed.

Definition sameDate (a b : Z * Z * Z) : bool :=
  let '(y, m, d) := a in
  let '(y', m', d') := b in
  (y =? y') && (m =? m') && (d =? d').

Lemma sameDate_eq a b : sameDate a b = true -> a = b.
Proof.
  destruct a as [[y m] d], b as [[y' m'] d']. unfold sameDate.
  intros [[Hy Hm]%andb_true_iff Hd]%andb_true_iff.
  apply Z.eqb_eq in Hy, Hm, Hd. congruence.
Qed.

(** The day number of the calendar date [y]-[m]-[d] is read back as that
    date. *)
Definition roundTrip (y m d : Z) : bool :=
  implb (d <=? daysInMonth (InLeapYear y) m)
        (sameDate (civilFromDays (MakeDay y (m - 1) d)) (y, m, d)).

Lemma implb_elim (b c : bool) : implb b c = true -> b = true -> c = true.
Proof. destruct b, c; cbn; intros; congruence. Qed.

Lemma roundTrip_sound y m d :
  roundTrip y m d = true ->
  (d <=? daysInMonth (InLeapYear y) m) = true ->
  civilFromDays (MakeDay y (m - 1) d) = (y, m, d).
Proof.
  unfold roundTrip. intros Himp Hd. apply sameDate_eq.
  exact (implb_elim _ _ Himp Hd).
Qed.

(** One era of 400 years, checked date by date. *)
Lemma eraRoundTrip :
  forallb (fun y => forallb (fun m => forallb (fun d => roundTrip y m d) (seqZ 1 31))
                            (seqZ 1 12))
          (seqZ 0 400) = true.
Proof. vm_compute. reflexivity. Qed.

Lemma forallb_seqZ (p : Z -> bool) a n x :
  forallb p (seqZ a n) = true -> a <= x < a + n -> p x = true.
Proof.
  intros Hall Hx. rewrite forallb_forall in Hall. apply Hall.
  apply list_elem_of_In, elem_of_seqZ. exact Hx.
Qed.

Lemma eraRoundTrip_date y m d :
  0 <= y < 400 -> 1 <= m <= 12 -> 1 <= d <= 31 -> roundTrip y m d = true.
Proof.
  intros Hy Hm Hd.
  pose proof (forallb_seqZ _ _ _ y eraRoundTrip) as Hera.
  cbv beta in Hera. specialize (Hera ltac:(lia)).
  apply (forallb_seqZ _ _ _ m) in Hera; [|lia]. cbv beta in Hera.
  apply (forallb_seqZ _ _ _ d) in Hera; [|lia]. exact Hera.
Qed.

(** The time values at the ends of the range and at the epoch, as every
    engine prints them. *)
Example toISOString_landmarks :
  toISOString 0 = "1970-01-01T00:00:00.000Z" /\
  toISOString maxTime = "+275760-09-13T00:00:00.000Z" /\
  toISOString (- maxTime) = "-271821-04-20T00:00:00.000Z" /\
  toISOString (-1) = "1969-12-31T23:59:59.999Z" /\
  Date_UTC 275760 8 13 = Some maxTime /\
  Date_UTC 275760 8 14 = None /\
  Date_UTC 0 0 1 = Date_UTC 1900 0 1.
Proof. repeat split; reflexivity. Qed.

(** [civilFromDays] inverts [MakeDay] on every calendar date. *)
Lemma civilFromDays_MakeDay y m d :
  inCalendar y m d = true -> civilFromDays (MakeDay y (m - 1) d) = (y, m, d).
Proof.
  unfold inCalendar. intros Hcal.
  apply andb_true_iff in Hcal as [Hcal Hd2]. apply andb_true_iff in Hcal as [Hcal Hd1].
  apply andb_true_iff in Hcal as [Hm1 Hm2].
  apply Z.leb_le in Hm1, Hm2, Hd1.
  pose proof (Z.div_mod y 400 ltac:(lia)) as Hy.
  pose proof (Z.mod_pos_bound y 400 ltac:(lia)) as Hy0.
  set (y0 := y mod 400) in *. set (k := y / 400) in *.
  assert (Ey : y = y0 + 400 * k) by lia. clearbody y0 k. clear Hy. subst y.
  rewrite InLeapYear_shift in Hd2.
  assert (Hd3 : d <= 31).
  { apply Z.leb_le in Hd2. pose proof (daysInMonth_le (InLeapYear y0) m). lia. }
  pose proof (eraRoundTrip_date y0 m d ltac:(lia) ltac:(lia) ltac:(lia)) as Hera.
  pose proof (roundTrip_sound _ _ _ Hera Hd2) as Hdate.
  rewrite MakeDay_shift, civilFromDays_shift, Hdate. reflexivity.
Qed.

(** ** Dates *)

Section Dates.
Context (h : Host).

(** [dt.toISOString().slice(0,10)] of a valid date. *)
Definition isoDate (t : Z) : string := slice0 10 (toISOString t).

Lemma genericDate_returns s :
  genericDate h s = Return (isoDate <$> Date_parse h s).
Proof.
  unfold genericDate, isoDate. destruct (Date_parse h s) as [t|]; reflexivity.
Qed.

(** What [toISO] returns, with no exception in sight: the structured date
    when three numbers make a valid time value, the engine's reading
    otherwise. *)
Definition structuredDate (s : string) : option Z :=
  match dateNums s with
  | a :: b :: c :: _ =>
      let '(y, m, d) := resolveYMD a b c in Date_UTC y (m - 1) d
  | _ => None
  end.

Definition toISO_value (raw : option string) : option string :=
  match raw with
  | None => None
  | Some r =>
      if truthy r then
        match structuredDate (dateText r) with
        | Some t => Some (isoDate t)
        | None => isoDate <$> Date_parse h (dateText r)
        end
      else None
  end.

Lemma toISO_returns raw : toISO h raw = Return (toISO_value raw).
Proof.
  destruct raw as [r|]; [|reflexivity].
  unfold toISO, toISO_value, structuredDate.
  destruct (truthy r); [|reflexivity]. cbn [negb].
  destruct (dateNums (dateText r)) as [|a [|b [|c rest]]];
    try apply genericDate_returns.
  destruct (resolveYMD a b c) as [[y m] d].
  destruct (Date_UTC y (m - 1) d) as [t|]; [reflexivity|].
  apply genericDate_returns.
Qed.
End Dates.

(** C7. [toISO] reads "31/01/2024" and "2024/01/31" as 2024-01-31, and
    "13/02/2024" day first as 2024-02-13; the empty text gives null; a text
    the engine's parser finds invalid, as "not a date" is, gives null; when
    neither the structured reading nor the engine's yields a date the
    result is null; and no input makes [toISO] throw. *)
Theorem toISO_examples_null_on_failure_never_throws (h : Host) :
  Date_parse h "not a date" = None ->
  toISO h (Some "31/01/2024") = Return (Some "2024-01-31") /\
  toISO h (Some "2024/01/31") = Return (Some "2024-01-31") /\
  toISO h (Some "13/02/2024") = Return (Some "2024-02-13") /\
  toISO h (Some "") = Return None /\
  toISO h (Some "not a date") = Return None /\
  (forall r, structuredDate (dateText r) = None ->
             Date_parse h (dateText r) = None ->
             toISO h (Some r) = Return None) /\
  (forall raw, exists v, toISO h raw = Return v).
Proof.
  intros Hnad. repeat split; try reflexivity.
  - assert (Ht : dateText "not a date" = "not a date") by reflexivity.
    assert (Hs : structuredDate "not a date" = None) by reflexivity.
    rewrite toISO_returns. unfold toISO_value.
    rewrite Ht, Hs, Hnad. reflexivity.
  - intros r Hs Hg. rewrite toISO_returns. unfold toISO_value.
    rewrite Hs, Hg. destruct (truthy r); reflexivity.
  - intros raw. eexists. apply toISO_returns.
Qed.

Lemma toISO_examples_null_on_failure_never_throws_witness :
  toISO bareHost (Some "not a date") = Return None /\
  toISO bareHost (Some "13/02/2024") = Return (Some "2024-02-13").
Proof.
  destruct (toISO_examples_null_on_failure_never_throws bareHost eq_refl)
    as (_ & _ & H3 & _ & H5 & _).
  exact (conj H5 H3).
Defined.

Lemma MakeDay_from_first y m d : MakeDay y m d = MakeDay y m 1 + (d - 1).
Proof. unfold MakeDay. lia. Qed.

Lemma dateNums_nonempty_text r : dateNums (dateText r) <> [] -> truthy r = true.
Proof. destruct r; [intros H; exfalso; apply H; reflexivity | reflexivity]. Qed.



(** Within the calendar nothing rolls over: the date is given back as it
    was read.  Stated for the years that [Date.UTC] takes as written and
    [toISOString] prints with four digits. *)
Lemma length_append (a b : string) :
  String.length (a +:+ b) = (String.length a + String.length b)%nat.
Proof. induction a as [|c a IH]; [reflexivity|]. rewrite append_cons. cbn. rewrite IH. reflexivity. Qed.

Lemma pad_length w n : String.length (pad w n) = w.
Proof.
  revert n. induction w as [|w IH]; intros n; [reflexivity|].
  cbn [pad]. rewrite length_append, IH. cbn. lia.
Qed.

Lemma slice0_append (a b : string) n :
  slice0 (String.length a + n) (a +:+ b) = a +:+ slice0 n b.
Proof. induction a as [|c a IH]; [reflexivity|]. rewrite !append_cons. cbn. rewrite IH. reflexivity. Qed.

Lemma slice0_pad w n k (b : string) : slice0 (w + k) (pad w n +:+ b) = pad w n +:+ slice0 k b.
Proof. rewrite <- (pad_length w n) at 1. apply slice0_append. Qed.

Lemma slice0_all (a : string) : slice0 (String.length a) a = a.
Proof. induction a as [|c a IH]; [reflexivity|]. cbn. rewrite IH. reflexivity. Qed.

Lemma append_char c (x : string) : String c "" +:+ x = String c x.
Proof. reflexivity. Qed.

Lemma slice0_cons n c (s : string) : slice0 (S n) (String c s) = String c (slice0 n s).
Proof. reflexivity. Qed.

Lemma toISOString_date t y m d :
  civilFromDays (t / msPerDay) = (y, m, d) -> 0 <= y <= 9999 ->
  isoDate t = pad 4 y +:+ "-" +:+ pad 2 m +:+ "-" +:+ pad 2 d.
Proof.
  intros Hciv Hy. unfold isoDate, toISOString. rewrite Hciv. cbv beta iota zeta.
  replace ((0 <=? y) && (y <=? 9999)) with true
    by (symmetry; apply andb_true_iff; split; apply Z.leb_le; lia).
  cbv iota.
  rewrite !append_char.
  change 10%nat with (4 + 6)%nat. rewrite slice0_pad, (slice0_cons 5).
  change 5%nat with (2 + 3)%nat. rewrite slice0_pad, (slice0_cons 2).
  change (slice0 2) with (slice0 (2 + 0)). rewrite slice0_pad.
  reflexivity.
Qed.

Lemma daysBeforeMonth_bound leap m : 0 <= daysBeforeMonth leap m <= 335.
Proof.
  unfold daysBeforeMonth. destruct leap;
    repeat match goal with
           | |- context [match ?x with _ => _ end] => destruct x
           end; lia.
Qed.

Lemma toISO_calendar_date (h : Host) r a b c rest y m d :
  dateNums (dateText r) = a :: b :: c :: rest ->
  resolveYMD a b c = (y, m, d) ->
  100 <= y <= 9999 -> inCalendar y m d = true ->
  toISO h (Some r) = Return (Some (pad 4 y +:+ "-" +:+ pad 2 m +:+ "-" +:+ pad 2 d)).
Proof.
  intros Hnums Hres Hy Hcal.
  rewrite toISO_returns. unfold toISO_value, structuredDate.
  rewrite (dateNums_nonempty_text r) by (rewrite Hnums; discriminate).
  rewrite Hnums, Hres. unfold Date_UTC, fullYear.
  replace ((0 <=? y) && (y <=? 99)) with false
    by (symmetry; apply andb_false_iff; right; apply Z.leb_gt; lia).
  assert (Hday : -700000 <= MakeDay y (m - 1) d <= 3000000).
  { unfold inCalendar in Hcal.
    apply andb_true_iff in Hcal as [Hcal Hd2]. apply andb_true_iff in Hcal as [Hcal Hd1].
    apply andb_true_iff in Hcal as [Hm1 Hm2]. apply Z.leb_le in Hm1, Hm2, Hd1, Hd2.
    pose proof (daysInMonth_le (InLeapYear y) m).
    unfold MakeDay.
    pose proof (daysBeforeMonth_bound (InLeapYear (y + (m - 1) / 12)) ((m - 1) mod 12)).
    unfold DayFromYear. Z.div_mod_to_equations. lia. }
  unfold TimeClip.
  replace (Z.abs (MakeDay y (m - 1) d * msPerDay) <=? maxTime) with true
    by (symmetry; apply Z.leb_le; unfold msPerDay, maxTime; lia).
  f_equal. f_equal. apply toISOString_date; [|lia].
  rewrite Z.div_mul by discriminate. apply civilFromDays_MakeDay. exact Hcal.
Qed.


(** ** Numbers *)

Lemma toNum_of_no_digit s :
  sfilter isDigitOrDot s = "" -> toNum (Some s) = Some (Finite 0 0).
Proof. intros H. unfold toNum. rewrite H. reflexivity. Qed.

Lemma toNum_null_iff_not_finite s :
  toNum (Some s) = None <-> Number_isFinite (Number (sfilter isDigitOrDot s)) = false.
Proof.
  unfold toNum. destruct (Number_isFinite _); split; congruence.
Qed.

(** C8, at the input where the code departs from it.  "USD 1,200.50" is
    1200.50 and null stays null; but a text with no digit at all, as "N/A",
    is stripped to the empty text, which [Number] reads as 0: [toNum]
    returns 0 there, not null.  A text stripped to something that is no
    numeric literal, as "1.2.3", does give null. *)
Theorem toNum_text_without_digits_is_zero :
  toNum (Some "USD 1,200.50") = Some (Finite 120050 2) /\
  toNum None = None /\
  toNum (Some "1.2.3") = None /\
  toNum (Some "N/A") = Some (Finite 0 0).
Proof. repeat split; reflexivity. Qed.

(** ** Classifiers of the two generations *)

Definition typeKeywords : list string :=
  ["expression of interest"; "reoi"; "invitation to bid"; "rfb"; "itb";
   "request for proposals"; "rfp"; "general procurement notice"; "gpn"; "award"].

Definition categoryKeywords : list string :=
  ["works"; "goods"; "supply"; "consult"].

Definition typeEnum : list string := ["REOI"; "RFB/ITB"; "RFP"; "GPN"; "Award"].
Definition categoryEnum : list string := ["Works"; "Goods"; "Consulting"].

(** The text matches one of the keywords, letter case apart. *)
Definition matchesKeyword (ws : list string) (s : string) : bool :=
  anyWord ws (toLowerCase s).

Lemma truthy_nonempty s : s <> "" -> truthy s = true.
Proof. destruct s; [congruence | reflexivity]. Qed.

Ltac split_words :=
  unfold matchesKeyword, typeKeywords, categoryKeywords,
    classifyType, classifyCategory, V6.classifyType, V6.classifyCategory,
    anyWord; cbn [existsb];
  repeat match goal with
         | |- context [includes ?w ?t] => destruct (includes w t); cbn [orb]
         end.

(** C9. On a text that matches a keyword the two generations return the
    same class, one of the enumerated ones; on a non-empty text that matches
    none the later generation returns the text itself and the earlier one
    "Other"; on the empty text both return "Other". *)
Theorem classifier_generations (s : string) :
  (matchesKeyword typeKeywords s = true ->
     V6.classifyType s = classifyType s /\ classifyType s ∈ typeEnum) /\
  (matchesKeyword categoryKeywords s = true ->
     V6.classifyCategory s = classifyCategory s /\ classifyCategory s ∈ categoryEnum) /\
  (s <> "" -> matchesKeyword typeKeywords s = false ->
     classifyType s = s /\ V6.classifyType s = "Other") /\
  (s <> "" -> matchesKeyword categoryKeywords s = false ->
     classifyCategory s = s /\ V6.classifyCategory s = "Other") /\
  classifyType "" = "Other" /\ V6.classifyType "" = "Other" /\
  classifyCategory "" = "Other" /\ V6.classifyCategory "" = "Other".
Proof.
  repeat apply conj; try reflexivity.
  - unfold typeEnum. split_words;
      intros H; try discriminate H; (split; [reflexivity | repeat constructor]).
  - unfold categoryEnum. split_words;
      intros H; try discriminate H; (split; [reflexivity | repeat constructor]).
  - intros Hs. split_words; intros H; try discriminate H.
    unfold orElse. rewrite (truthy_nonempty s Hs). split; reflexivity.
  - intros Hs. split_words; intros H; try discriminate H.
    unfold orElse. rewrite (truthy_nonempty s Hs). split; reflexivity.
Qed.

Lemma classifier_generations_witness :
  (V6.classifyType "Request for Proposals (RFP)" = classifyType "Request for Proposals (RFP)" /\
   classifyType "Request for Proposals (RFP)" ∈ typeEnum) /\
  (V6.classifyCategory "Civil Works" = classifyCategory "Civil Works" /\
   classifyCategory "Civil Works" ∈ categoryEnum) /\
  (classifyType "Prequalification" = "Prequalification" /\
   V6.classifyType "Prequalification" = "Other") /\
  (classifyCategory "Non-consulting services" = "Consulting") /\
  (classifyCategory "Leasing" = "Leasing" /\ V6.classifyCategory "Leasing" = "Other").
Proof.
  split; [exact (proj1 (classifier_generations "Request for Proposals (RFP)") eq_refl)|].
  split; [exact (proj1 (proj2 (classifier_generations "Civil Works")) eq_refl)|].
  split; [refine (proj1 (proj2 (proj2 (classifier_generations "Prequalification"))) _ eq_refl);
          discriminate|].
  split; [reflexivity|].
  refine (proj1 (proj2 (proj2 (proj2 (classifier_generations "Leasing")))) _ eq_refl);
    discriminate.
Defined.

(** ** Deduplication *)

(** The first occurrence of every key, in the order of the list: the head
    stays, and what repeats its key is removed from the rest. *)
Section FirstOccurrences.
Context {A K : Type} `{EqDecision K} (f : A -> K).

Fixpoint firstOccurrences (l : list A) : list A :=
  match l with
  | [] => []
  | x :: r => x :: filter (fun y => f y <> f x) (firstOccurrences r)
  end.

Lemma firstOccurrences_filter (Q : K -> Prop) (HQ : forall k, Decision (Q k)) l :
  firstOccurrences (filter (fun x => Q (f x)) l)
  = filter (fun x => Q (f x)) (firstOccurrences l).
Proof.
  induction l as [|x l IH]; [reflexivity|].
  cbn [firstOccurrences]. rewrite !filter_cons.
  destruct (decide (Q (f x))) as [Hq|Hq].
  - cbn [firstOccurrences]. rewrite IH. f_equal.
    rewrite !list_filter_filter. apply list_filter_iff. tauto.
  - rewrite IH. rewrite list_filter_filter. apply list_filter_iff.
    intros y. split; [|tauto]. intros Hy. split; [exact Hy|].
    intros Heq. apply Hq. rewrite <- Heq. exact Hy.
Qed.

Lemma firstOccurrences_sublist l : firstOccurrences l `sublist_of` l.
Proof.
  induction l as [|x l IH]; [constructor|].
  cbn [firstOccurrences]. apply sublist_skip.
  etrans; [apply sublist_filter | exact IH].
Qed.

Lemma firstOccurrences_elem l x : x ∈ firstOccurrences l -> x ∈ l.
Proof. intros Hx. exact (elem_of_sublist _ _ _ Hx (firstOccurrences_sublist l)). Qed.

Lemma firstOccurrences_NoDup l : NoDup (f <$> firstOccurrences l).
Proof.
  induction l as [|x l IH]; [constructor|].
  cbn [firstOccurrences fmap list_fmap]. constructor.
  - rewrite list_elem_of_fmap. intros (y & Hy & Hin).
    apply list_elem_of_filter in Hin as [Hne _]. congruence.
  - eapply sublist_NoDup; [exact IH | apply fmap_sublist, sublist_filter].
Qed.

Lemma firstOccurrences_complete l x :
  x ∈ l -> exists y, y ∈ firstOccurrences l /\ f y = f x.
Proof.
  induction l as [|z l IH]; [intros Hx; inversion Hx|].
  intros Hx. cbn [firstOccurrences].
  destruct (decide (f x = f z)) as [Heq|Hne].
  - exists z. split; [left | congruence].
  - apply elem_of_cons in Hx as [->|Hx]; [congruence|].
    destruct (IH Hx) as (y & Hy & Hfy). exists y. split; [|exact Hfy].
    right. apply list_elem_of_filter. split; [congruence | exact Hy].
Qed.

(** What is kept is the first of its key in the list. *)
Lemma firstOccurrences_first l y :
  y ∈ firstOccurrences l ->
  exists i, l !! i = Some y /\ forall j z, (j < i)%nat -> l !! j = Some z -> f z <> f y.
Proof.
  induction l as [|x l IH]; [intros Hy; inversion Hy|].
  cbn [firstOccurrences]. intros Hy.
  apply elem_of_cons in Hy as [->|Hy].
  - exists 0%nat. split; [reflexivity|]. intros j z Hj. lia.
  - apply list_elem_of_filter in Hy as [Hne Hy].
    destruct (IH Hy) as (i & Hi & Hbefore). exists (S i). split; [exact Hi|].
    intros [|j] z Hj Hz.
    + cbn in Hz. congruence.
    + cbn in Hz. apply (Hbefore j); [lia | exact Hz].
Qed.
End FirstOccurrences.

Lemma filter_ext_elem {A} (P Q : A -> Prop)
    `{!forall x, Decision (P x), !forall x, Decision (Q x)} (l : list A) :
  (forall x, x ∈ l -> P x <-> Q x) -> filter P l = filter Q l.
Proof.
  induction l as [|x l IH]; [reflexivity|]. intros Hpq.
  rewrite !filter_cons.
  rewrite IH by (intros y Hy; apply Hpq; right; exact Hy).
  destruct (decide (P x)) as [Hp|Hp], (decide (Q x)) as [Hq|Hq];
    try reflexivity; exfalso; apply (Hpq x) in Hp || apply (Hpq x) in Hq;
    try (left; fail); tauto.
Qed.

(** Two key functions that tell the same elements of [l] apart keep the
    same occurrences. *)
Lemma firstOccurrences_same_keys {A K K'} `{EqDecision K, EqDecision K'}
    (f : A -> K) (g : A -> K') (l : list A) :
  (forall x y, x ∈ l -> y ∈ l -> f x = f y <-> g x = g y) ->
  firstOccurrences f l = firstOccurrences g l.
Proof.
  induction l as [|x l IH]; [reflexivity|]. intros Hfg.
  cbn [firstOccurrences]. f_equal.
  rewrite IH by (intros y z Hy Hz; apply Hfg; right; assumption).
  apply filter_ext_elem. intros y Hy.
  apply firstOccurrences_elem in Hy.
  split; intros Hne Heq; apply Hne; apply (Hfg y x); (right; exact Hy) || left || exact Heq.
Qed.

(** Texts without a given separator. *)
Definition sepFree (sep : ascii) (s : string) : bool :=
  sforall (fun c => negb (Ascii.eqb c sep)) s.

Lemma sepFree_cons sep c s :
  sepFree sep (String c s) = negb (Ascii.eqb c sep) && sepFree sep s.
Proof. reflexivity. Qed.

Lemma sepFree_with_sep sep (a r : string) :
  sepFree sep (a +:+ String sep r) = false.
Proof.
  induction a as [|c a IH].
  - rewrite append_nil_l, sepFree_cons, Ascii.eqb_refl. reflexivity.
  - rewrite append_cons, sepFree_cons, IH. apply andb_false_r.
Qed.

(** A separator after a text free of it is found again: the text before
    the first separator and the text after it are determined. *)
Lemma split_at_first_sep sep (a1 a2 r1 r2 : string) :
  sepFree sep a1 = true -> sepFree sep a2 = true ->
  a1 +:+ String sep r1 = a2 +:+ String sep r2 -> a1 = a2 /\ r1 = r2.
Proof.
  revert a2. induction a1 as [|c a1 IH]; intros [|c' a2] H1 H2 Heq;
    rewrite ?append_nil_l, ?append_cons in Heq.
  - injection Heq as ->. done.
  - injection Heq as Hc Hr.
    subst c'. rewrite sepFree_cons, Ascii.eqb_refl in H2. discriminate.
  - injection Heq as Hc Hr.
    subst c. rewrite sepFree_cons, Ascii.eqb_refl in H1. discriminate.
  - injection Heq as Hc Hr. subst c'. rewrite sepFree_cons in H1, H2.
    apply andb_true_iff in H1 as [_ H1]. apply andb_true_iff in H2 as [_ H2].
    destruct (IH a2 H1 H2 Hr) as [-> ->]. done.
Qed.

(** The same from the right: the text after the last separator. *)
Lemma split_at_last_sep sep (a1 a2 r1 r2 : string) :
  sepFree sep r1 = true -> sepFree sep r2 = true ->
  a1 +:+ String sep r1 = a2 +:+ String sep r2 -> a1 = a2 /\ r1 = r2.
Proof.
  revert a2. induction a1 as [|c a1 IH]; intros [|c' a2] H1 H2 Heq;
    rewrite ?append_nil_l, ?append_cons in Heq.
  - injection Heq as ->. done.
  - injection Heq as Hc Hr. rewrite Hr, sepFree_with_sep in H1. discriminate.
  - injection Heq as Hc Hr. rewrite <- Hr, sepFree_with_sep in H2. discriminate.
  - injection Heq as Hc Hr. subst c'. destruct (IH a2 H1 H2 Hr) as [-> ->]. done.
Qed.

Definition idHash (n : CanonicalRecord) : string * string := (id n, hash n).

Lemma dedupKey_idHash n1 n2 :
  sepFree ":" (hash n1) = true -> sepFree ":" (hash n2) = true ->
  dedupKey n1 = dedupKey n2 <-> idHash n1 = idHash n2.
Proof.
  intros H1 H2. unfold dedupKey, idHash. split.
  - intros Heq. change (":" +:+ hash n1) with (String ":" (hash n1)) in Heq.
    change (":" +:+ hash n2) with (String ":" (hash n2)) in Heq.
    destruct (split_at_last_sep _ _ _ _ _ H1 H2 Heq) as [-> ->]. reflexivity.
  - intros [= -> ->]. reflexivity.
Qed.

Lemma Map_set_fresh {V} (m : JsMap V) k v :
  Map_has m k = false -> Map_set m k v = m ++ [(k, v)].
Proof.
  induction m as [|[k' v'] m IH]; [reflexivity|].
  cbn. destruct (String.eqb k' k); [discriminate|].
  intros Hm. rewrite IH by exact Hm. reflexivity.
Qed.

Lemma Map_has_snoc {V} (m : JsMap V) k v k' :
  Map_has (m ++ [(k, v)]) k' = Map_has m k' || String.eqb k k'.
Proof.
  unfold Map_has. rewrite existsb_app. cbn. rewrite orb_false_r. reflexivity.
Qed.

Lemma filter_all {A} (P : A -> Prop) `{!forall x, Decision (P x)} (l : list A) :
  (forall x, P x) -> filter P l = l.
Proof.
  intros HP. induction l as [|x l IH]; [reflexivity|].
  rewrite filter_cons_True by apply HP. rewrite IH. reflexivity.
Qed.

(** The loop of [dedupeByIdHash], from any map: the values already there,
    then the first occurrences of the keys not there yet. *)
Lemma dedupe_loop (arr : list CanonicalRecord) (m : JsMap CanonicalRecord) :
  Map_values
    (fold_left (fun m n => let k := dedupKey n in
                           if negb (Map_has m k) then Map_set m k n else m)
               arr m)
  = Map_values m ++
    firstOccurrences dedupKey (filter (fun n => Map_has m (dedupKey n) = false) arr).
Proof.
  revert m. induction arr as [|n arr IH]; intros m.
  - cbn. rewrite app_nil_r. reflexivity.
  - cbn [fold_left]. rewrite filter_cons.
    destruct (Map_has m (dedupKey n)) eqn:Hhas; cbn [negb].
    + rewrite decide_False by congruence. apply IH.
    + rewrite decide_True by reflexivity.
      rewrite Map_set_fresh by exact Hhas. rewrite IH.
      unfold Map_values at 1 2. rewrite fmap_app. cbn [fmap list_fmap snd].
      rewrite <- app_assoc. cbn [app firstOccurrences]. do 2 f_equal.
      etrans; [|exact (firstOccurrences_filter dedupKey (fun k => k <> dedupKey n) _ _)].
      f_equal. rewrite list_filter_filter. apply list_filter_iff.
      intros x. rewrite Map_has_snoc, orb_false_iff.
      destruct (String.eqb_spec (dedupKey n) (dedupKey x)); split;
        intros [? ?]; split; congruence.
Qed.

Lemma dedupeByIdHash_by_key arr :
  dedupeByIdHash arr = firstOccurrences dedupKey arr.
Proof.
  unfold dedupeByIdHash. rewrite dedupe_loop. cbn [Map_values fmap list_fmap app].
  f_equal. apply filter_all. reflexivity.
Qed.

(** A record with a given identifier and fingerprint, every other field at
    the value [normalizeRows] gives an empty row. *)
Definition recordOf (i fp : string) : CanonicalRecord :=
  {| id := i; source := "IDB"; noticeId := None; projectId := None;
     projectName := None; title := "(untitled)"; summary_original := None;
     summary_ko := None; countryName := None; country := None;
     sector := ["Other"]; category := "Other"; method := None;
     noticeType := "Other"; currency := None; budgetEstimate := None;
     publicationDate := None; deadline := None; buyer := None; city := None;
     language := ["en"]; url := PAGE_URL; documents := [];
     lastSeenAt := "1970-01-01T00:00:00.000Z"; hash := fp |}.

Lemma firstOccurrences_three {A K} `{EqDecision K} (f : A -> K) r1 r2 r3 :
  f r1 = f r2 -> f r3 <> f r1 ->
  firstOccurrences f [r1; r2; r3] = [r1; r3] /\
  firstOccurrences f [r1; r3; r2] = [r1; r3] /\
  firstOccurrences f [r3; r1; r2] = [r3; r1].
Proof.
  intros H12 H31. cbn [firstOccurrences]. rewrite <- H12.
  repeat (rewrite ?filter_nil;
          first [ rewrite filter_cons_True by congruence
                | rewrite filter_cons_False by (intros ?; congruence) ]).
  done.
Qed.

(** C5, as the code has it.  On records whose fingerprint holds no colon, as
    a hexadecimal digest does not, [dedupeByIdHash] returns the first occurrence of every
    (id, hash) pair, in the order of the input: one entry for each pair
    that occurs, each the earliest record of its pair, the whole a
    subsequence of the input.  Of two records with the same pair and one
    with another hash, two are left, in their first-seen order. *)
Theorem dedupeByIdHash_first_of_each_pair (arr : list CanonicalRecord) :
  Forall (fun n => sepFree ":" (hash n) = true) arr ->
  dedupeByIdHash arr = firstOccurrences idHash arr /\
  NoDup (idHash <$> dedupeByIdHash arr) /\
  (forall n, n ∈ arr -> exists n', n' ∈ dedupeByIdHash arr /\ idHash n' = idHash n) /\
  dedupeByIdHash arr `sublist_of` arr /\
  (forall n, n ∈ dedupeByIdHash arr ->
     exists i, arr !! i = Some n /\
       forall j z, (j < i)%nat -> arr !! j = Some z -> idHash z <> idHash n) /\
  (forall r1 r2 r3,
     arr = [r1; r2; r3] -> idHash r1 = idHash r2 -> hash r3 <> hash r1 ->
     dedupeByIdHash [r1; r2; r3] = [r1; r3] /\
     dedupeByIdHash [r1; r3; r2] = [r1; r3] /\
     dedupeByIdHash [r3; r1; r2] = [r3; r1]).
Proof.
  intros Hfree.
  assert (Hkeys : forall l, Forall (fun n => sepFree ":" (hash n) = true) l ->
                            dedupeByIdHash l = firstOccurrences idHash l).
  { intros l Hl. rewrite dedupeByIdHash_by_key.
    apply firstOccurrences_same_keys. intros x y Hx Hy.
    rewrite Forall_forall in Hl. apply dedupKey_idHash; apply Hl; assumption. }
  rewrite (Hkeys arr Hfree). repeat apply conj.
  - reflexivity.
  - apply firstOccurrences_NoDup.
  - apply firstOccurrences_complete.
  - apply firstOccurrences_sublist.
  - apply firstOccurrences_first.
  - intros r1 r2 r3 -> H12 H3.
    assert (H31 : idHash r3 <> idHash r1) by (unfold idHash; congruence).
    apply Forall_cons in Hfree as [F1 Hfree].
    apply Forall_cons in Hfree as [F2 Hfree].
    apply Forall_cons in Hfree as [F3 _].
    rewrite !Hkeys by (repeat constructor; assumption).
    apply firstOccurrences_three; assumption.
Qed.

Lemma dedupeByIdHash_first_of_each_pair_witness :
  dedupeByIdHash [recordOf "IDB:n-1" "4fe0"; recordOf "IDB:n-1" "4fe0"; recordOf "IDB:n-1" "a91c"]
  = [recordOf "IDB:n-1" "4fe0"; recordOf "IDB:n-1" "a91c"].
Proof.
  refine (proj1 (proj2 (proj2 (proj2 (proj2 (proj2
    (dedupeByIdHash_first_of_each_pair
       [recordOf "IDB:n-1" "4fe0"; recordOf "IDB:n-1" "4fe0"; recordOf "IDB:n-1" "a91c"] _)))))
    _ _ _ eq_refl eq_refl _)).
  - repeat constructor.
  - cbn. discriminate.
Defined.

(** C5 as stated fails: the key of the Map is the identifier, a colon and
    the fingerprint in one text, so the record with identifier "a:b" and
    fingerprint "c" and the record with identifier "a" and fingerprint
    "b:c" share their key although their (id, hash) pairs differ; the
    second is dropped. *)
Lemma dedupeByIdHash_merges_pairs_across_colon :
  idHash (recordOf "a:b" "c") <> idHash (recordOf "a" "b:c") /\
  dedupeByIdHash [recordOf "a:b" "c"; recordOf "a" "b:c"] = [recordOf "a:b" "c"].
Proof. split; [discriminate | vm_compute; reflexivity]. Qed.

(** ** The row normaliser *)

(** [dedupeByIdHash(normalizeRows(rawRows))], as [main] composes them. *)
Definition pipeline (h : Host) (rows : list RawRow) : completion (list CanonicalRecord) :=
  xs ← normalizeRows h rows; mret (dedupeByIdHash xs).

Definition titleAliases : list string := ["Notice Title"; "Title"].
Definition urlAliases : list string := ["URL"; "Link"; "Notice URL"].
Definition dueAliases : list string := ["Due Date"; "Deadline"; "Closing Date"].

(** The four fields that are hashed. *)
Definition salient (x : CanonicalRecord) : string * option string * option string * string :=
  (title x, countryName x, deadline x, url x).

Section RowNormaliser.
Context (h : Host).

Lemma orElse_truthy a b : truthy b = true -> truthy (orElse a b) = true.
Proof.
  intros Hb. unfold orElse. destruct a as [s|]; [|exact Hb].
  destruct (truthy s) eqn:E; [exact E | exact Hb].
Qed.

Lemma orNull_not_empty a : orNull a <> Some "".
Proof.
  unfold orNull. destruct a as [[|c s]|]; cbn; congruence.
Qed.

(** A row always normalises, and these are the salient fields of what it
    gives. *)
Lemma normalizeRow_fields now (r : RawRow) :
  exists x,
    normalizeRow h now r = Return x /\
    title x = orElse (Some (trim (orElse (headerPick r titleAliases) ""))) "(untitled)" /\
    countryName x = orNull (headerPick r ["Country"]) /\
    deadline x = toISO_value h (headerPick r dueAliases) /\
    url x = orElse (headerPick r urlAliases) PAGE_URL /\
    hash x = sha256 h (hashInput (title x) (countryName x) (deadline x) (url x)) /\
    country x = mapCountryToISO2 (orElse (headerPick r ["Country"]) "") /\
    sector x = inferSectors (title x).
Proof.
  unfold normalizeRow. rewrite !toISO_returns.
  eexists. split; [reflexivity|]. repeat split.
Qed.

(** One row gives one record; the fields as above. *)
Lemma normalizeRows_one (r : RawRow) :
  exists x,
    normalizeRows h [r] = Return [x] /\
    title x = orElse (Some (trim (orElse (headerPick r titleAliases) ""))) "(untitled)" /\
    countryName x = orNull (headerPick r ["Country"]) /\
    deadline x = toISO_value h (headerPick r dueAliases) /\
    url x = orElse (headerPick r urlAliases) PAGE_URL /\
    country x = mapCountryToISO2 (orElse (headerPick r ["Country"]) "") /\
    sector x = inferSectors (title x) /\
    hash x = sha256 h (hashInput (title x) (countryName x) (deadline x) (url x)).
Proof.
  destruct (normalizeRow_fields (clock h 0) r) as (x & Hx & Ht & Hc & Hd & Hu & Hh & Hi & Hs).
  exists x. split; [|done].
  unfold normalizeRows. cbn [mapRows]. rewrite Hx.
  change (Return x ≫= _) with (Return (A := list CanonicalRecord) [x]).
  change (Return [x] ≫= _) with (Return (filter (fun x => retained x) [x])).
  rewrite filter_cons_True; [reflexivity|].
  unfold retained. rewrite Ht, Hu, !orElse_truthy by reflexivity. exact I.
Qed.

Lemma normalizeRow_retained now (r : RawRow) x :
  normalizeRow h now r = Return x -> retained x = true.
Proof.
  intros Hx. destruct (normalizeRow_fields now r) as (x' & Hx' & Ht & _ & _ & Hu & _).
  rewrite Hx in Hx'. injection Hx' as <-.
  unfold retained. rewrite Ht, Hu, !orElse_truthy by reflexivity. reflexivity.
Qed.

Lemma mapRows_returns i (rows : list RawRow) :
  exists xs,
    mapRows h i rows = Return xs /\
    length xs = length rows /\
    forall x, x ∈ xs -> exists now r, r ∈ rows /\ normalizeRow h now r = Return x.
Proof.
  revert i. induction rows as [|r rows IH]; intros i.
  - exists []. repeat split. intros x Hx. inversion Hx.
  - cbn [mapRows].
    destruct (normalizeRow_fields (clock h i) r) as (x & Hx & _).
    destruct (IH (S i)) as (xs & Hxs & Hlen & Hall).
    rewrite Hx, Hxs. exists (x :: xs). split; [reflexivity|].
    split; [cbn; congruence|].
    intros y Hy. apply elem_of_cons in Hy as [->|Hy].
    + exists (clock h i), r. split; [left | exact Hx].
    + destruct (Hall y Hy) as (now & r' & Hr' & Hy').
      exists now, r'. split; [right; exact Hr' | exact Hy'].
Qed.

(** Every row yields a record and the filter lets every record through:
    no row is ever dropped. *)
Lemma normalizeRows_keeps_every_row (rows : list RawRow) :
  exists xs,
    normalizeRows h rows = Return xs /\
    length xs = length rows /\
    forall x, x ∈ xs -> exists now r, r ∈ rows /\ normalizeRow h now r = Return x.
Proof.
  unfold normalizeRows.
  destruct (mapRows_returns 0 rows) as (xs & Hxs & Hlen & Hall).
  rewrite Hxs. exists xs. cbn.
  assert (Hf : filter (fun x => retained x) xs = xs).
  { clear Hxs Hlen. induction xs as [|x xs IH]; [reflexivity|].
    destruct (Hall x) as (now & r & _ & Hx); [left|].
    rewrite filter_cons_True by (rewrite (normalizeRow_retained _ _ _ Hx); exact I).
    rewrite IH; [reflexivity|]. intros y Hy. apply Hall. right. exact Hy. }
  rewrite Hf. repeat split; assumption.
Qed.
End RowNormaliser.

(** Two rows that agree under every name but those of the members of
    [Object.prototype]. *)
Definition agreeOnOwnNames (r r' : RawRow) : Prop :=
  forall k, k ∉ objectPrototypeNames -> r !! k = r' !! k.

(** No spelling of [k] that [headerPick] looks up is the name of a member
    of [Object.prototype]. *)
Definition ownVariants (k : string) : bool :=
  bool_decide (k ∉ objectPrototypeNames) &&
  match toUpperCase k with
  | Some ku => bool_decide (ku ∉ objectPrototypeNames)
  | None => true
  end &&
  bool_decide (toLowerCase k ∉ objectPrototypeNames).

Lemma headerPick_own_names (r r' : RawRow) keys :
  forallb ownVariants keys = true -> agreeOnOwnNames r r' ->
  headerPick r keys = headerPick r' keys.
Proof.
  intros Hkeys Hag. induction keys as [|k ks IH]; [reflexivity|].
  cbn [forallb] in Hkeys. apply andb_true_iff in Hkeys as [Hk Hks].
  unfold ownVariants in Hk.
  apply andb_true_iff in Hk as [Hk Hlow]. apply andb_true_iff in Hk as [Hown Hup].
  apply bool_decide_eq_true in Hown. apply bool_decide_eq_true in Hlow.
  cbn [headerPick]. unfold usableUpper, getUpper, usable.
  rewrite (Hag k Hown), (Hag (toLowerCase k) Hlow), (IH Hks).
  destruct (toUpperCase k) as [ku|]; [|reflexivity].
  apply bool_decide_eq_true in Hup. rewrite (Hag ku Hup). reflexivity.
Qed.

(** [normalizeRows] looks a row up under no name that every object
    inherits, in none of the three spellings: what a row holds under such a
    name does not reach its record.  So [k in row] is, for every key that
    is asked, the presence of the key in the row. *)
Lemma normalizeRow_reads_own_names (h : Host) now (r r' : RawRow) :
  agreeOnOwnNames r r' -> normalizeRow h now r = normalizeRow h now r'.
Proof.
  intros Hag. unfold normalizeRow.
  rewrite (headerPick_own_names r r' ["Notice Title"; "Title"] eq_refl Hag).
  rewrite (headerPick_own_names r r' ["URL"; "Link"; "Notice URL"] eq_refl Hag).
  rewrite (headerPick_own_names r r' ["Country"] eq_refl Hag).
  rewrite (headerPick_own_names r r' ["Type"; "Notice Type"] eq_refl Hag).
  rewrite (headerPick_own_names r r' ["Project Name"; "Project"] eq_refl Hag).
  rewrite (headerPick_own_names r r' ["Project Number"; "Project ID"] eq_refl Hag).
  rewrite (headerPick_own_names r r' ["Publication Date"; "Posted"] eq_refl Hag).
  rewrite (headerPick_own_names r r' ["Due Date"; "Deadline"; "Closing Date"] eq_refl Hag).
  rewrite (headerPick_own_names r r' ["Executing Agency"; "Buyer"; "Agency"] eq_refl Hag).
  rewrite (headerPick_own_names r r' ["Category"] eq_refl Hag).
  rewrite (headerPick_own_names r r' ["Method"] eq_refl Hag).
  rewrite (headerPick_own_names r r' ["Currency"] eq_refl Hag).
  rewrite (headerPick_own_names r r' ["Budget"; "Estimate"] eq_refl Hag).
  reflexivity.
Qed.

Lemma dedupeByIdHash_one x : dedupeByIdHash [x] = [x].
Proof. rewrite dedupeByIdHash_by_key. reflexivity. Qed.

(** Any row without a usable title and URL comes out under the sentinel
    title and the page URL. *)
Lemma row_without_title_and_url (h : Host) (r : RawRow) :
  headerPick r titleAliases = None -> headerPick r urlAliases = None ->
  exists x,
    normalizeRows h [r] = Return [x] /\ title x = "(untitled)" /\ url x = PAGE_URL.
Proof.
  intros Ht Hu. destruct (normalizeRows_one h r) as (x & Hx & Ht' & _ & _ & Hu' & _).
  exists x. rewrite Ht', Hu', Ht, Hu. repeat split. exact Hx.
Qed.

(** C2, at an input where the code departs from it.  A row with a country
    but no title and no URL under any alias is not excluded: it comes out
    as a record titled "(untitled)" whose URL is the page URL, because the
    filter tests the title and the URL after their defaults are in. *)
Theorem row_without_title_and_url_is_kept (h : Host) :
  headerPick {["Country" := "Peru"]} titleAliases = None /\
  headerPick {["Country" := "Peru"]} urlAliases = None /\
  exists x,
    normalizeRows h [{["Country" := "Peru"]}] = Return [x] /\
    title x = "(untitled)" /\ url x = PAGE_URL /\ countryName x = Some "Peru".
Proof.
  split; [reflexivity|]. split; [reflexivity|].
  destruct (normalizeRows_one h {["Country" := "Peru"]})
    as (x & Hx & Ht & Hc & _ & Hu & _).
  exists x. split; [exact Hx|]. rewrite Ht, Hu, Hc. repeat split.
Qed.

(** ** Field resolution *)

(** C6, at an input where the code departs from it.  The title is taken
    from "Notice Title" before "Title", a blank cell is passed over, and a
    header written as the alias, all in capitals or all in small letters
    is found.  A header that differs from the alias in the case of some
    letters only, here "Notice title", is not found, although [headerPick]
    is meant to pick among the keys without regard to case: the record
    gets the title "(untitled)". *)
Theorem header_in_mixed_case_is_not_resolved (h : Host) :
  let titleOf (row : RawRow) (t : string) :=
    exists x, normalizeRows h [row] = Return [x] /\ title x = t in
  titleOf (<["Notice Title" := "Bridge"]> {["Title" := "Other"]}) "Bridge" /\
  titleOf (<["Notice Title" := "  "]> {["Title" := "Other"]}) "Other" /\
  titleOf {["NOTICE TITLE" := "Bridge"]} "Bridge" /\
  titleOf {["notice title" := "Bridge"]} "Bridge" /\
  toLowerCase "Notice title" = toLowerCase "Notice Title" /\
  titleOf {["Notice title" := "Bridge"]} "(untitled)".
Proof.
  assert (Hone : forall (row : RawRow) t,
            orElse (Some (trim (orElse (headerPick row titleAliases) ""))) "(untitled)" = t ->
            exists x, normalizeRows h [row] = Return [x] /\ title x = t).
  { intros row t Ht. destruct (normalizeRows_one h row) as (x & Hx & Hx' & _).
    exists x. split; [exact Hx | rewrite Hx'; exact Ht]. }
  cbv zeta. repeat split; try apply Hone; vm_compute; reflexivity.
Qed.

Definition bridgeRow : RawRow :=
  <["Notice Title" := "Bridge Rehabilitation"]>
    (<["Country" := "Peru"]> (<["Due Date" := "15/03/2024"]> ∅)).

(** C3, as the code has it.  The row with "Notice Title" = "Bridge
    Rehabilitation", "Country" = "Peru" and "Due Date" = "15/03/2024" yields
    exactly one record, with that title, country "PE" and deadline
    2024-03-15; its sector is ["Other"], since the title holds none of the
    sector keywords. *)
Theorem bridge_row_yields_one_record (h : Host) :
  exists x,
    pipeline h [bridgeRow] = Return [x] /\
    title x = "Bridge Rehabilitation" /\
    country x = Some (Own "PE") /\
    deadline x = Some "2024-03-15" /\
    sector x = ["Other"].
Proof.
  destruct (normalizeRows_one h bridgeRow) as (x & Hx & Ht & _ & Hd & _ & Hc & Hs & _).
  exists x. split.
  - unfold pipeline. rewrite Hx.
    change (Return [x] ≫= _) with (Return (dedupeByIdHash [x])).
    rewrite dedupeByIdHash_one. reflexivity.
  - rewrite Hs, Ht, Hc, Hd. repeat split.
Qed.

(** C3 as stated fails: the sector of that record is not ["Transport"]. *)
Lemma bridge_row_sector_is_not_transport :
  ~ (forall h : Host, exists x,
       pipeline h [bridgeRow] = Return [x] /\
       title x = "Bridge Rehabilitation" /\
       country x = Some (Own "PE") /\
       deadline x = Some "2024-03-15" /\
       sector x = ["Transport"]).
Proof.
  intros H. destruct (H bareHost) as (x & Hx & _ & _ & _ & Hs).
  vm_compute in Hx. injection Hx as <-. discriminate Hs.
Qed.

(** ** The fingerprint *)

(** The characters of an ISO date and time. *)
Definition isoChar (c : ascii) : bool :=
  isDigit c || Ascii.eqb c "-" || Ascii.eqb c "+" || Ascii.eqb c "T" ||
  Ascii.eqb c ":" || Ascii.eqb c "." || Ascii.eqb c "Z".

Lemma sforall_append p (a b : string) :
  sforall p (a +:+ b) = sforall p a && sforall p b.
Proof.
  induction a as [|c a IH]; [reflexivity|].
  rewrite append_cons. cbn [sforall]. rewrite IH. apply andb_assoc.
Qed.

Lemma sforall_slice0 p n s : sforall p s = true -> sforall p (slice0 n s) = true.
Proof.
  revert s. induction n as [|n IH]; intros [|c s]; try reflexivity.
  cbn [sforall slice0]. intros [Hc Hs]%andb_true_iff.
  rewrite Hc, IH by exact Hs. reflexivity.
Qed.

Lemma sforall_impl (p q : ascii -> bool) s :
  (forall c, p c = true -> q c = true) -> sforall p s = true -> sforall q s = true.
Proof.
  intros Hpq. induction s as [|c s IH]; [reflexivity|].
  cbn [sforall]. intros [Hc Hs]%andb_true_iff.
  rewrite (Hpq c Hc), IH by exact Hs. reflexivity.
Qed.

Lemma digitChar_isDigit n : isDigit (digitChar n) = true.
Proof.
  unfold digitChar. pose proof (Z.mod_pos_bound n 10 eq_refl) as Hb.
  assert (Hk : exists k, n mod 10 = Z.of_nat k /\ (k < 10)%nat).
  { exists (Z.to_nat (n mod 10)). lia. }
  destruct Hk as (k & -> & Hk).
  do 10 (destruct k as [|k]; [reflexivity|]). lia.
Qed.

Lemma pad_isoChar w n : sforall isoChar (pad w n) = true.
Proof.
  revert n. induction w as [|w IH]; intros n; [reflexivity|].
  cbn [pad]. rewrite sforall_append, IH. cbn [sforall andb].
  unfold isoChar. rewrite digitChar_isDigit. reflexivity.
Qed.

Lemma toISOString_isoChar t : sforall isoChar (toISOString t) = true.
Proof.
  unfold toISOString. destruct (civilFromDays (t / msPerDay)) as [[y m] d].
  rewrite !sforall_append, !pad_isoChar.
  destruct ((0 <=? y) && (y <=? 9999));
    [|destruct (y <? 0); rewrite sforall_append]; rewrite !pad_isoChar; reflexivity.
Qed.

Lemma pad_succ_truthy w n : truthy (pad (S w) n) = true.
Proof. cbn [pad]. destruct (pad w (n / 10)); reflexivity. Qed.

Lemma truthy_append_l (a b : string) : truthy a = true -> truthy (a +:+ b) = true.
Proof. destruct a; [discriminate | reflexivity]. Qed.

Lemma toISOString_truthy t : truthy (toISOString t) = true.
Proof.
  unfold toISOString. destruct (civilFromDays (t / msPerDay)) as [[y m] d].
  apply truthy_append_l.
  destruct ((0 <=? y) && (y <=? 9999)); [apply pad_succ_truthy|].
  destruct (y <? 0); reflexivity.
Qed.

Lemma slice0_truthy n s : truthy s = true -> truthy (slice0 (S n) s) = true.
Proof. destruct s; [discriminate | reflexivity]. Qed.

(** A date that [toISO] returns is a non-empty text without a bar. *)
Lemma toISO_value_shape (h : Host) raw d :
  toISO_value h raw = Some d -> sepFree "|" d = true /\ truthy d = true.
Proof.
  assert (Hshape : forall t, sepFree "|" (isoDate t) = true /\
                             truthy (isoDate t) = true).
  { intros t. unfold isoDate. split.
    - apply sforall_slice0. apply (sforall_impl isoChar); [|apply toISOString_isoChar].
      intros c. destruct (Ascii.eqb_spec c "|") as [->|]; [discriminate | reflexivity].
    - apply slice0_truthy, toISOString_truthy. }
  unfold toISO_value. destruct raw as [r|]; [|discriminate].
  destruct (truthy r); [|discriminate].
  destruct (structuredDate (dateText r)) as [t|].
  - intros Hd. injection Hd as Hd. rewrite <- Hd. apply Hshape.
  - destruct (Date_parse h (dateText r)) as [t|]; [|discriminate].
    intros Hd. injection Hd as Hd. rewrite <- Hd. apply Hshape.
Qed.

(** The records that [normalizeRows] produces. *)
Definition produced (h : Host) (x : CanonicalRecord) : Prop :=
  exists rows xs, normalizeRows h rows = Return xs /\ x ∈ xs.

(** The digest tells any two texts apart. *)
Definition collisionFree (h : Host) : Prop :=
  forall a b, sha256 h a = sha256 h b -> a = b.

Lemma produced_fields h x :
  produced h x ->
  hash x = sha256 h (hashInput (title x) (countryName x) (deadline x) (url x)) /\
  countryName x <> Some "" /\
  deadline x <> Some "" /\
  sepFree "|" (orElse (deadline x) "") = true.
Proof.
  intros (rows & xs & Hxs & Hx).
  destruct (normalizeRows_keeps_every_row h rows) as (xs' & Hxs' & _ & Hall).
  rewrite Hxs in Hxs'. injection Hxs' as <-.
  destruct (Hall x Hx) as (now & r & _ & Hr).
  destruct (normalizeRow_fields h now r) as (x' & Hx' & _ & Hc & Hd & _ & Hh & _).
  rewrite Hr in Hx'. injection Hx' as <-.
  split; [exact Hh|]. split; [rewrite Hc; apply orNull_not_empty|].
  destruct (deadline x) as [d|] eqn:Ed; [|split; [discriminate | reflexivity]].
  symmetry in Hd. apply toISO_value_shape in Hd as [Hfree Hne].
  split; [|unfold orElse; rewrite Hne; exact Hfree].
  intros [= ->]. discriminate Hne.
Qed.

Lemma orElse_empty_inj (a b : option string) :
  a <> Some "" -> b <> Some "" -> orElse a "" = orElse b "" -> a = b.
Proof.
  destruct a as [[|c s]|], b as [[|c' s']|]; cbn; congruence.
Qed.

Lemma hashInput_bars t c d u :
  hashInput t c d u
  = t +:+ String "|" (orElse c "" +:+ String "|" (orElse d "" +:+ String "|" u)).
Proof. reflexivity. Qed.

(** C4, as the code has it.  Of any two records that [normalizeRows]
    produces, with or without a bar in their fields, equal salient fields
    give equal hashes; and when the digest is free of collisions and
    neither title nor country name holds a bar, the hashes are equal
    exactly when title, country name, deadline and URL are. *)
Theorem hash_equal_iff_salient_equal_without_bars (h : Host) x1 x2 :
  produced h x1 -> produced h x2 ->
  (salient x1 = salient x2 -> hash x1 = hash x2) /\
  (collisionFree h ->
   sepFree "|" (title x1) = true -> sepFree "|" (orElse (countryName x1) "") = true ->
   sepFree "|" (title x2) = true -> sepFree "|" (orElse (countryName x2) "") = true ->
   (hash x1 = hash x2 <-> salient x1 = salient x2)).
Proof.
  intros P1 P2.
  destruct (produced_fields h x1 P1) as (Hh1 & Hn1 & Hm1 & Hd1).
  destruct (produced_fields h x2 P2) as (Hh2 & Hn2 & Hm2 & Hd2).
  assert (Hsame : salient x1 = salient x2 -> hash x1 = hash x2).
  { unfold salient. intros [= Et Ec Ed Eu]. rewrite Hh1, Hh2. congruence. }
  split; [exact Hsame|].
  intros Hinj Ht1 Hc1 Ht2 Hc2. split; [|exact Hsame]. unfold salient.
  - intros Heq. rewrite Hh1, Hh2 in Heq. apply Hinj in Heq.
    rewrite !hashInput_bars in Heq.
    apply split_at_first_sep in Heq as [Et Heq]; [|assumption..].
    apply split_at_first_sep in Heq as [Ec Heq]; [|assumption..].
    apply split_at_first_sep in Heq as [Ed Eu]; [|assumption..].
    apply orElse_empty_inj in Ec; [|assumption..].
    apply orElse_empty_inj in Ed; [|assumption..].
    congruence.
Qed.

Definition barTitleRow : RawRow := {["Notice Title" := "A|B"]}.
Definition barCountryRow : RawRow := <["Notice Title" := "A"]> {["Country" := "B|"]}.

Definition recordOfRow (h : Host) (r : RawRow) : CanonicalRecord :=
  match normalizeRows h [r] with
  | Return [x] => x
  | _ => recordOf "" ""
  end.

Definition bridgeRecord : CanonicalRecord := Eval vm_compute in recordOfRow bareHost bridgeRow.
Definition peruRecord : CanonicalRecord :=
  Eval vm_compute in recordOfRow bareHost {["Country" := "Peru"]}.
Definition barTitleRecord : CanonicalRecord := Eval vm_compute in recordOfRow bareHost barTitleRow.
Definition barCountryRecord : CanonicalRecord :=
  Eval vm_compute in recordOfRow bareHost barCountryRow.

Lemma bareHost_collisionFree : collisionFree bareHost.
Proof. intros a b Hab. exact Hab. Qed.

Lemma produced_by_row (r : RawRow) x :
  normalizeRows bareHost [r] = Return [x] -> produced bareHost x.
Proof. intros Hx. exists [r], [x]. split; [exact Hx | left]. Qed.

(** The row of [barTitleRecord] with a method: another record with the same
    salient fields. *)
Definition barTitleMethodRecord : CanonicalRecord :=
  Eval vm_compute in recordOfRow bareHost (<["Method" := "ICB"]> barTitleRow).

Lemma hash_equal_iff_salient_equal_without_bars_witness :
  (barTitleMethodRecord <> barTitleRecord /\
   hash barTitleMethodRecord = hash barTitleRecord) /\
  (hash bridgeRecord = hash peruRecord <-> salient bridgeRecord = salient peruRecord).
Proof.
  assert (Pbar : produced bareHost barTitleRecord).
  { apply (produced_by_row barTitleRow). vm_compute. reflexivity. }
  assert (P1 : produced bareHost bridgeRecord).
  { apply (produced_by_row bridgeRow). vm_compute. reflexivity. }
  assert (P2 : produced bareHost peruRecord).
  { apply (produced_by_row {["Country" := "Peru"]}). vm_compute. reflexivity. }
  assert (Pmethod : produced bareHost barTitleMethodRecord).
  { apply (produced_by_row (<["Method" := "ICB"]> barTitleRow)). vm_compute. reflexivity. }
  split.
  - split; [discriminate|].
    exact (proj1 (hash_equal_iff_salient_equal_without_bars bareHost _ _ Pmethod Pbar)
             eq_refl).
  - apply (proj2 (hash_equal_iff_salient_equal_without_bars bareHost _ _ P1 P2)).
    + exact bareHost_collisionFree.
    + vm_compute. reflexivity.
    + vm_compute. reflexivity.
    + vm_compute. reflexivity.
    + vm_compute. reflexivity.
Defined.

(** Whatever the digest, the two rows get the same hash. *)
Lemma bar_rows_same_hash (h : Host) :
  exists x1 x2,
    normalizeRows h [barTitleRow] = Return [x1] /\
    normalizeRows h [barCountryRow] = Return [x2] /\
    hash x1 = hash x2 /\ title x1 <> title x2 /\ countryName x1 <> countryName x2.
Proof.
  destruct (normalizeRows_one h barTitleRow) as (x1 & Hx1 & Ht1 & Hc1 & Hd1 & Hu1 & _ & _ & Hh1).
  destruct (normalizeRows_one h barCountryRow) as (x2 & Hx2 & Ht2 & Hc2 & Hd2 & Hu2 & _ & _ & Hh2).
  exists x1, x2. split; [exact Hx1|]. split; [exact Hx2|].
  rewrite Hh1, Hh2, Ht1, Ht2, Hc1, Hc2, Hd1, Hd2, Hu1, Hu2.
  repeat split; discriminate.
Qed.

(** C4 as stated fails: the title "A|B" with no country and the title "A"
    with the country "B|" are hashed from the same text, so the hashes are
    equal whatever the digest, while titles and countries differ. *)
Lemma hash_equal_with_different_fields :
  ~ (forall (h : Host) x1 x2,
       collisionFree h -> produced h x1 -> produced h x2 ->
       (hash x1 = hash x2 <-> salient x1 = salient x2)).
Proof.
  intros H.
  assert (P1 : produced bareHost barTitleRecord).
  { apply (produced_by_row barTitleRow). vm_compute. reflexivity. }
  assert (P2 : produced bareHost barCountryRecord).
  { apply (produced_by_row barCountryRow). vm_compute. reflexivity. }
  destruct (H bareHost _ _ bareHost_collisionFree P1 P2) as [Hfields _].
  specialize (Hfields eq_refl). discriminate Hfields.
Qed.

(** ** The orchestrator *)

Definition isSleep (e : effect) : Prop :=
  match e with Sleep _ => True | _ => False end.

Definition isScreenshot (e : effect) : Prop :=
  match e with Screenshot _ => True | _ => False end.

Definition isWrite (e : effect) : Prop :=
  match e with WriteFile _ _ => True | _ => False end.

(** The date in the name of the dated file, when no row was read. *)
Definition todayOfEmptyRun (h : Host) : string := slice0 10 (toISOString (clock h 0)).

(** What the parser leaves behind in a given attempt. *)
Definition parserEffects (page : Page) (attempt : nat) : list effect :=
  trace (parseAccessibleTableIO (frameAt page attempt)).

Lemma parseFramesIO_returns i frs :
  outcome (parseFramesIO i frs) = Return (parseFrames frs).
Proof.
  revert i. induction frs as [|fr later IH]; intros i; [reflexivity|].
  cbn [parseFramesIO parseFrames]. destruct (view fr) as [v|]; [|apply IH].
  destruct (frameRecs v) as [|first rest]; [|reflexivity].
  cbn. apply IH.
Qed.

Lemma parseFramesIO_no_rows i frs :
  parseFrames frs = [] -> Forall isScreenshot (trace (parseFramesIO i frs)).
Proof.
  revert i. induction frs as [|fr later IH]; intros i; [constructor|].
  cbn [parseFramesIO parseFrames]. destruct (view fr) as [v|]; [|apply IH].
  destruct (frameRecs v) as [|first rest]; [|discriminate].
  cbn. intros Hlater. constructor; [exact I | apply IH, Hlater].
Qed.

Lemma parseAccessibleTableIO_at page attempt :
  parseAccessibleTableIO (frameAt page attempt)
  = Proc (parserEffects page attempt) (Return (tableRows page attempt)).
Proof.
  unfold parserEffects, tableRows, parseAccessibleTable, parseAccessibleTableIO.
  rewrite <- parseFramesIO_returns with (i := 0%nat).
  destruct (parseFramesIO 0 (frames (frameAt page attempt))). reflexivity.
Qed.

Lemma parserEffects_no_rows page attempt :
  tableRows page attempt = [] -> Forall isScreenshot (parserEffects page attempt).
Proof. apply parseFramesIO_no_rows. Qed.

(** One step of the retry loop, with the parser's answer in. *)
Lemma retryLoop_step page attempt later rows :
  retryLoop page (attempt :: later) rows =
  if negb (gridReady page attempt) then
    if bool_decide (attempt = RETRIES)
    then throw (Error "Power BI grid not visible after waiting")
    else perform (Sleep (1500 * Z.of_nat attempt));; retryLoop page later rows
  else
    Proc (parserEffects page attempt) (Return tt);;
    if negb (bool_decide (tableRows page attempt = [])) then mret (tableRows page attempt)
    else
      (if bool_decide (attempt < RETRIES)%nat
       then perform (Sleep (1500 * Z.of_nat attempt)) else mret tt);;
      retryLoop page later (tableRows page attempt).
Proof.
  cbn [retryLoop]. rewrite parseAccessibleTableIO_at. reflexivity.
Qed.

Section ZeroRows.
Context (h : Host) (env : Failures) (page : Page).
Hypothesis frame_found : powerBIFrame page = true.
Hypothesis no_rows : forall attempt, (1 <= attempt <= RETRIES)%nat -> tableRows page attempt = [].

(** The effects of a run up to the end of the retry loop, given the
    screenshots of the three attempts. *)
Definition zeroRowsPrefix (shots1 shots2 shots3 : list effect) : list effect :=
  Sleep PAGE_LOAD_WAIT_MS :: shots1 ++ Sleep 1500 :: shots2 ++ Sleep 3000 :: shots3.

Lemma retryLoop_zero_rows :
  exists shots1 shots2 shots3,
    Forall isScreenshot (shots1 ++ shots2 ++ shots3) /\
    retryLoop page (seq 1 RETRIES) []
    = Proc (shots1 ++ Sleep 1500 :: shots2 ++ Sleep 3000 :: shots3)
           (if gridReady page RETRIES then Return []
            else Throw (Error "Power BI grid not visible after waiting")).
Proof.
  unfold RETRIES in *. cbn [seq]. rewrite !retryLoop_step.
  rewrite !no_rows by lia.
  assert (H1 := parserEffects_no_rows page 1 (no_rows 1%nat ltac:(lia))).
  assert (H2 := parserEffects_no_rows page 2 (no_rows 2%nat ltac:(lia))).
  assert (H3 := parserEffects_no_rows page 3 (no_rows 3%nat ltac:(lia))).
  exists (if gridReady page 1 then parserEffects page 1 else []),
         (if gridReady page 2 then parserEffects page 2 else []),
         (if gridReady page 3 then parserEffects page 3 else []).
  split.
  - rewrite !Forall_app.
    destruct (gridReady page 1), (gridReady page 2), (gridReady page 3);
      repeat split; solve [assumption | constructor].
  - destruct (gridReady page 1), (gridReady page 2), (gridReady page 3);
      cbn; rewrite ?app_nil_r, <- ?app_assoc; reflexivity.
Qed.

Lemma main_zero_rows :
  exists shots1 shots2 shots3,
    Forall isScreenshot (shots1 ++ shots2 ++ shots3) /\
    (gridReady page RETRIES = false ->
     main h env page =
       (zeroRowsPrefix shots1 shots2 shots3 ++
        [ConsoleError (Error "Power BI grid not visible after waiting")], 1)) /\
    (gridReady page RETRIES = true ->
     writeFails env "data/notices.json" = None ->
     writeFails env ("data/notices-" +:+ todayOfEmptyRun h +:+ ".json") = None ->
     closeFails env = None ->
     main h env page =
       (zeroRowsPrefix shots1 shots2 shots3 ++
        [WriteFile "data/notices.json" [];
         WriteFile ("data/notices-" +:+ todayOfEmptyRun h +:+ ".json") [];
         LogOK 0; BrowserClose], 0)).
Proof.
  destruct retryLoop_zero_rows as (shots1 & shots2 & shots3 & Hshots & Hloop).
  exists shots1, shots2, shots3. split; [exact Hshots|].
  unfold zeroRowsPrefix. split; intros Hlast.
  - unfold main, run. rewrite frame_found, Hloop, Hlast. cbn. reflexivity.
  - intros Hw1 Hw2 Hc. unfold todayOfEmptyRun in *.
    unfold main, run, writeFileSync, browserClose. rewrite frame_found, Hloop, Hlast.
    cbn -[toISOString String.append slice0]. rewrite Hw1, Hw2, Hc.
    cbn -[toISOString String.append slice0]. rewrite <- !app_assoc. reflexivity.
Qed.
End ZeroRows.


(** A frame that shows the header row of the grid and no other row. *)
Definition headerOnlyFrame : Frame :=
  MkFrame (Some {| headerCells := ["Notice Title"; "Country"; "Due Date"];
                   firstRowCells := ["Notice Title"; "Country"; "Due Date"];
                   rowLocs := [["Notice Title"; "Country"; "Due Date"]] |})
          [].

(** A page whose grid is ready at once and whose table never has a row. *)
Definition hydratingPage : Page :=
  {| powerBIFrame := true; gridReady := fun _ => true; frameAt := fun _ => headerOnlyFrame |}.

(** A run in which no write fails and the browser closes. *)
Definition noFailures : Failures :=
  {| writeFails := fun _ => None; closeFails := None |}.



(** * Further properties

    What follows covers the code beyond the claims above: the row
    normaliser as a whole, the deduplicator, the run, the date and number
    readers, the classifiers, the identifiers, field resolution and the
    parser of the grid. *)

(** ** More on the row normaliser *)

(** The map over the rows, record by record. *)
Lemma mapRows_aligned (h : Host) (rows : list RawRow) i0 :
  exists xs,
    mapRows h i0 rows = Return xs /\
    length xs = length rows /\
    (forall i r, rows !! i = Some r ->
       exists x, xs !! i = Some x /\
                 normalizeRow h (clock h (i0 + i)%nat) r = Return x).
Proof.
  revert i0. induction rows as [|r rows IH]; intros i0.
  - exists []. repeat split. intros i r Hr. destruct i; discriminate Hr.
  - cbn [mapRows].
    destruct (normalizeRow_fields h (clock h i0) r) as (x & Hx & _).
    destruct (IH (S i0)) as (xs & Hxs & Hlen & Hat).
    rewrite Hx, Hxs. exists (x :: xs). split; [reflexivity|].
    split; [cbn; congruence|].
    intros [|i] r' Hr'.
    + injection Hr' as <-. exists x. rewrite Nat.add_0_r. split; [reflexivity | exact Hx].
    + destruct (Hat i r' Hr') as (x' & Hx' & Hn). exists x'.
      replace (i0 + S i)%nat with (S i0 + i)%nat by lia. split; [exact Hx' | exact Hn].
Qed.

Lemma filter_retained (h : Host) (xs : list CanonicalRecord) :
  (forall x, x ∈ xs -> exists now r, normalizeRow h now r = Return x) ->
  filter (fun x => retained x) xs = xs.
Proof.
  induction xs as [|x xs IH]; [reflexivity|]. intros Hall.
  destruct (Hall x) as (now & r & Hx); [left|].
  rewrite filter_cons_True by (rewrite (normalizeRow_retained _ _ _ _ Hx); exact I).
  rewrite IH; [reflexivity|]. intros y Hy. apply Hall. right. exact Hy.
Qed.

(** X1. [normalizeRows] never throws and never drops or reorders a row: the
    record at position [i] is the one made from row [i] with the [i]-th
    clock reading, and it passes the filter. *)
Theorem normalizeRows_one_record_per_row (h : Host) (rows : list RawRow) :
  exists xs,
    normalizeRows h rows = Return xs /\
    length xs = length rows /\
    (forall i r, rows !! i = Some r ->
       exists x, xs !! i = Some x /\ normalizeRow h (clock h i) r = Return x) /\
    Forall (fun x => retained x = true) xs.
Proof.
  destruct (mapRows_aligned h rows 0%nat) as (xs & Hxs & Hlen & Hat).
  assert (Hfrom : forall x, x ∈ xs -> exists now r, normalizeRow h now r = Return x).
  { intros x Hx. apply list_elem_of_lookup in Hx as [i Hx].
    destruct (lookup_lt_is_Some_2 rows i) as [r Hr].
    { rewrite <- Hlen. eapply lookup_lt_Some, Hx. }
    destruct (Hat i r Hr) as (x' & Hx' & Hn). rewrite Hx in Hx'. injection Hx' as <-.
    eauto. }
  exists xs. unfold normalizeRows. rewrite Hxs.
  change (Return xs ≫= _) with (Return (filter (fun x => retained x) xs)).
  rewrite (filter_retained h xs Hfrom). repeat split; try assumption.
  apply Forall_forall. intros x Hx. destruct (Hfrom x Hx) as (now & r & Hn).
  eapply normalizeRow_retained, Hn.
Qed.

Lemma classifyType_truthy s : truthy (classifyType s) = true.
Proof.
  unfold classifyType.
  repeat match goal with
         | |- context [anyWord ?ws ?t] => destruct (anyWord ws t)
         end; try reflexivity.
  apply orElse_truthy. reflexivity.
Qed.

Lemma classifyCategory_truthy s : truthy (classifyCategory s) = true.
Proof.
  unfold classifyCategory.
  repeat match goal with
         | |- context [anyWord ?ws ?t] => destruct (anyWord ws t)
         end; try reflexivity.
  apply orElse_truthy. reflexivity.
Qed.

(** The record of a row, field by field, with nothing left to throw. *)
Lemma normalizeRow_record (h : Host) now (r : RawRow) x :
  normalizeRow h now r = Return x ->
  source x = "IDB" /\ language x = ["en"] /\ documents x = [] /\
  city x = None /\ summary_original x = None /\ summary_ko x = None /\
  lastSeenAt x = toISOString now /\
  category x = orElse (Some (trim (orElse (headerPick r ["Category"]) "")))
                 (classifyCategory (orElse (headerPick r ["Type"; "Notice Type"]) "")) /\
  noticeType x = classifyType (orElse (headerPick r ["Type"; "Notice Type"]) "") /\
  currency x = orNull (headerPick r ["Currency"]) /\
  method x = orNull (headerPick r ["Method"]) /\
  buyer x = orNull (headerPick r ["Executing Agency"; "Buyer"; "Agency"]) /\
  projectId x = orNull (headerPick r ["Project Number"; "Project ID"]) /\
  projectName x = orNull (headerPick r ["Project Name"; "Project"]) /\
  budgetEstimate x = toNum (orNull (headerPick r ["Budget"; "Estimate"])) /\
  publicationDate x = toISO_value h (headerPick r ["Publication Date"; "Posted"]) /\
  id x = "IDB:" +:+ stableIdFromURLorTitle h (headerPick r urlAliases) (title x) /\
  noticeId x = splitOn (fun c => Ascii.eqb c ":") (id x) !! 1%nat.
Proof.
  unfold normalizeRow. rewrite !toISO_returns.
  intros Hx. injection Hx as <-. repeat split.
Qed.

(** X2. Every record that [normalizeRows] produces has a non-empty title,
    URL, category and notice type, and none of its nullable texts is the
    empty text: what is missing is null. *)
Theorem produced_record_has_no_empty_text (h : Host) x :
  produced h x ->
  truthy (title x) = true /\ truthy (url x) = true /\
  truthy (category x) = true /\ truthy (noticeType x) = true /\
  source x = "IDB" /\
  Forall (fun f => f <> Some "")
    [countryName x; currency x; method x; buyer x; projectId x; projectName x;
     publicationDate x; deadline x].
Proof.
  intros (rows & xs & Hxs & Hx).
  destruct (normalizeRows_keeps_every_row h rows) as (xs' & Hxs' & _ & Hall).
  rewrite Hxs in Hxs'. injection Hxs' as <-.
  destruct (Hall x Hx) as (now & r & _ & Hr).
  destruct (normalizeRow_fields h now r) as (x' & Hx' & Ht & Hc & Hd & Hu & _).
  rewrite Hr in Hx'. injection Hx' as <-.
  destruct (normalizeRow_record h now r x Hr)
    as (Hs & _ & _ & _ & _ & _ & _ & Hcat & Hnt & Hcur & Hm & Hb & Hpi & Hpn & _ & Hpub & _).
  assert (Hdate : forall raw, toISO_value h raw <> Some "").
  { intros raw E. apply toISO_value_shape in E as [_ E]. discriminate E. }
  repeat split.
  - rewrite Ht. apply orElse_truthy. reflexivity.
  - rewrite Hu. apply orElse_truthy. reflexivity.
  - rewrite Hcat. apply orElse_truthy, classifyCategory_truthy.
  - rewrite Hnt. apply classifyType_truthy.
  - exact Hs.
  - rewrite Hc, Hcur, Hm, Hb, Hpi, Hpn, Hpub, Hd.
    repeat constructor; first [apply orNull_not_empty | apply Hdate].
Qed.

Lemma produced_record_has_no_empty_text_witness :
  truthy (title peruRecord) = true /\ category peruRecord = "Other" /\
  currency peruRecord = None.
Proof.
  assert (P : produced bareHost peruRecord).
  { apply (produced_by_row {["Country" := "Peru"]}). vm_compute. reflexivity. }
  split; [exact (proj1 (produced_record_has_no_empty_text bareHost peruRecord P))|].
  split; reflexivity.
Defined.

Lemma normalizeRow_same_key (h : Host) t1 t2 (r : RawRow) x1 x2 :
  normalizeRow h t1 r = Return x1 -> normalizeRow h t2 r = Return x2 ->
  dedupKey x2 = dedupKey x1.
Proof.
  unfold normalizeRow. rewrite !toISO_returns.
  intros H1 H2. injection H1 as <-. injection H2 as <-. reflexivity.
Qed.

(** ** More on deduplication *)

Lemma filter_all_elem {A} (P : A -> Prop) `{!forall x, Decision (P x)} (l : list A) :
  (forall x, x ∈ l -> P x) -> filter P l = l.
Proof.
  induction l as [|x l IH]; [reflexivity|]. intros HP.
  rewrite filter_cons_True by (apply HP; left).
  rewrite IH; [reflexivity|]. intros y Hy. apply HP. right. exact Hy.
Qed.

Lemma filter_none_elem {A} (P : A -> Prop) `{!forall x, Decision (P x)} (l : list A) :
  (forall x, x ∈ l -> ~ P x) -> filter P l = [].
Proof.
  induction l as [|x l IH]; [reflexivity|]. intros HP.
  rewrite filter_cons_False by (apply HP; left).
  apply IH. intros y Hy. apply HP. right. exact Hy.
Qed.

Section FirstOccurrencesMore.
Context {A K : Type} `{EqDecision K} (f : A -> K).

Lemma firstOccurrences_distinct l : NoDup (f <$> l) -> firstOccurrences f l = l.
Proof.
  induction l as [|x l IH]; [reflexivity|].
  cbn [fmap list_fmap firstOccurrences]. intros Hnd.
  apply NoDup_cons in Hnd as [Hx Hnd]. rewrite IH by exact Hnd. f_equal.
  apply filter_all_elem. intros y Hy Heq. apply Hx. rewrite <- Heq.
  apply list_elem_of_fmap. exists y. split; [reflexivity | exact Hy].
Qed.

Lemma firstOccurrences_idempotent l :
  firstOccurrences f (firstOccurrences f l) = firstOccurrences f l.
Proof. apply firstOccurrences_distinct, firstOccurrences_NoDup. Qed.

(** After [l], only what brings a new key counts. *)
Lemma firstOccurrences_app l l' :
  firstOccurrences f (l ++ l')
  = firstOccurrences f l
    ++ firstOccurrences f (filter (fun y => f y ∉ f <$> l) l').
Proof.
  induction l as [|x l IH].
  - cbn [app firstOccurrences fmap list_fmap]. f_equal. symmetry.
    apply filter_all_elem. intros y _ Hy. inversion Hy.
  - cbn [app firstOccurrences]. rewrite IH, filter_app. f_equal. f_equal.
    etrans; [symmetry; exact (firstOccurrences_filter f (fun k => k <> f x) _ _)|].
    f_equal. rewrite list_filter_filter. apply list_filter_iff.
    intros y. cbn [fmap list_fmap]. rewrite elem_of_cons. tauto.
Qed.

Lemma firstOccurrences_app_seen l l' :
  (forall y, y ∈ l' -> f y ∈ f <$> l) ->
  firstOccurrences f (l ++ l') = firstOccurrences f l.
Proof.
  intros Hseen. rewrite firstOccurrences_app.
  rewrite (filter_none_elem _ l') by (intros y Hy Hn; apply Hn, Hseen, Hy).
  apply app_nil_r.
Qed.
End FirstOccurrencesMore.

(** X4. Deduplicating twice changes nothing more; a sequence whose keys are
    all different is returned as it is; and the result is never longer than
    the input. *)
Theorem dedupeByIdHash_idempotent (arr : list CanonicalRecord) :
  dedupeByIdHash (dedupeByIdHash arr) = dedupeByIdHash arr /\
  (NoDup (dedupKey <$> arr) -> dedupeByIdHash arr = arr) /\
  (length (dedupeByIdHash arr) <= length arr)%nat.
Proof.
  rewrite !dedupeByIdHash_by_key. split; [apply firstOccurrences_idempotent|].
  split; [apply firstOccurrences_distinct|].
  apply sublist_length, firstOccurrences_sublist.
Qed.

Lemma dedupeByIdHash_idempotent_witness :
  dedupeByIdHash [recordOf "IDB:a" "01"; recordOf "IDB:b" "01"]
  = [recordOf "IDB:a" "01"; recordOf "IDB:b" "01"].
Proof.
  refine (proj1 (proj2 (dedupeByIdHash_idempotent
            [recordOf "IDB:a" "01"; recordOf "IDB:b" "01"])) _).
  cbn [fmap list_fmap]. apply NoDup_cons_2; [|apply NoDup_singleton].
  rewrite list_elem_of_singleton. vm_compute. discriminate.
Defined.

(** X5. Whatever the records, the output of [dedupeByIdHash] is a
    subsequence of the input in which no Map key [id:hash] occurs twice,
    every key of the input occurs, and each record kept is the earliest of
    its key; records that come after others with the same keys add
    nothing. *)
Theorem dedupeByIdHash_keeps_earliest_of_each_key (arr : list CanonicalRecord) :
  dedupeByIdHash arr `sublist_of` arr /\
  NoDup (dedupKey <$> dedupeByIdHash arr) /\
  (forall n, n ∈ arr -> exists n', n' ∈ dedupeByIdHash arr /\ dedupKey n' = dedupKey n) /\
  (forall n, n ∈ dedupeByIdHash arr ->
     exists i, arr !! i = Some n /\
       forall j z, (j < i)%nat -> arr !! j = Some z -> dedupKey z <> dedupKey n) /\
  (forall later,
     (forall n, n ∈ later -> dedupKey n ∈ dedupKey <$> arr) ->
     dedupeByIdHash (arr ++ later) = dedupeByIdHash arr).
Proof.
  rewrite !dedupeByIdHash_by_key. repeat apply conj.
  - apply firstOccurrences_sublist.
  - apply firstOccurrences_NoDup.
  - apply firstOccurrences_complete.
  - apply firstOccurrences_first.
  - intros later Hseen. rewrite !dedupeByIdHash_by_key.
    apply firstOccurrences_app_seen, Hseen.
Qed.

Lemma dedupeByIdHash_keeps_earliest_of_each_key_witness :
  dedupeByIdHash ([recordOf "IDB:a" "01"; recordOf "IDB:b" "01"] ++ [recordOf "IDB:a" "01"])
  = dedupeByIdHash [recordOf "IDB:a" "01"; recordOf "IDB:b" "01"].
Proof.
  refine (proj2 (proj2 (proj2 (proj2 (dedupeByIdHash_keeps_earliest_of_each_key
            [recordOf "IDB:a" "01"; recordOf "IDB:b" "01"])))) _ _).
  intros n Hn. apply list_elem_of_singleton in Hn as ->. left.
Defined.

(** ** The pipeline *)

Lemma mapRows_app (h : Host) i (a b : list RawRow) :
  mapRows h i (a ++ b)
  = xs ← mapRows h i a; ys ← mapRows h (i + length a)%nat b; mret (xs ++ ys).
Proof.
  revert i. induction a as [|r a IH]; intros i.
  - cbn [app mapRows length]. rewrite Nat.add_0_r.
    destruct (mapRows h i b); reflexivity.
  - cbn [app mapRows length]. rewrite IH.
    replace (S i + length a)%nat with (i + S (length a))%nat by lia.
    destruct (normalizeRow h (clock h i) r) as [x|e]; [|reflexivity].
    destruct (mapRows h (S i) a) as [xs|e]; [|reflexivity].
    destruct (mapRows h (i + S (length a)) b) as [ys|e]; reflexivity.
Qed.

(** X6. Rows that repeat rows already read add nothing: the pipeline gives
    the same records, those of the first reading. *)
Theorem pipeline_ignores_repeated_rows (h : Host) (rows again : list RawRow) :
  again ⊆ rows -> pipeline h (rows ++ again) = pipeline h rows.
Proof.
  intros Hsub. unfold pipeline, normalizeRows. rewrite mapRows_app.
  destruct (mapRows_aligned h rows 0) as (xs & Hxs & Hlen & Hat).
  destruct (mapRows_returns h (0 + length rows) again) as (ys & Hys & _ & Hall').
  rewrite Hxs, Hys.
  assert (Hfilter : filter (fun x => retained x) xs = xs).
  { apply (filter_retained h). intros x Hx. apply list_elem_of_lookup in Hx as [i Hx].
    destruct (lookup_lt_is_Some_2 rows i) as [r Hr].
    { rewrite <- Hlen. eapply lookup_lt_Some, Hx. }
    destruct (Hat i r Hr) as (x' & Hx' & Hn). rewrite Hx in Hx'. injection Hx' as <-.
    eauto. }
  change (Return (dedupeByIdHash (filter (fun x => retained x) (xs ++ ys)))
          = Return (dedupeByIdHash (filter (fun x => retained x) xs))).
  f_equal. rewrite filter_app.
  assert (Happ : forall l later : list CanonicalRecord,
            (forall n, n ∈ later -> dedupKey n ∈ dedupKey <$> l) ->
            dedupeByIdHash (l ++ later) = dedupeByIdHash l).
  { intros l later Hseen. rewrite !dedupeByIdHash_by_key.
    apply firstOccurrences_app_seen, Hseen. }
  apply Happ. intros y Hy. apply list_elem_of_filter in Hy as [_ Hy].
  destruct (Hall' y Hy) as (t & r & Hr & Hy').
  apply Hsub in Hr. apply list_elem_of_lookup in Hr as [i Hr].
  destruct (Hat i r Hr) as (x & Hx & Hxr).
  apply list_elem_of_fmap. exists x. split.
  - apply (normalizeRow_same_key h _ _ r x y Hxr Hy').
  - rewrite Hfilter. eapply list_elem_of_lookup_2, Hx.
Qed.

Lemma pipeline_ignores_repeated_rows_witness :
  pipeline bareHost ([bridgeRow; {["Country" := "Peru"]}] ++ [bridgeRow])
  = pipeline bareHost [bridgeRow; {["Country" := "Peru"]}].
Proof.
  apply pipeline_ignores_repeated_rows.
  intros r Hr. apply list_elem_of_singleton in Hr as ->. left.
Defined.

(** ** More on the orchestrator *)

(** The sleep before a retry: 1500 ms times the number of the attempt. *)
Definition backoff (attempt : nat) : effect := Sleep (1500 * Z.of_nat attempt).

(** What the parser leaves: screenshots and the sample of headers. *)
Definition isParserEffect (e : effect) : Prop :=
  match e with Screenshot _ | LogHeaders _ => True | _ => False end.

(** What an attempt leaves before the sleep that follows it: the effects of
    the parser, if the grid was ready. *)
Definition attemptEffects (page : Page) (attempt : nat) : list effect :=
  if gridReady page attempt then parserEffects page attempt else [].

Global Instance isSleep_dec (e : effect) : Decision (isSleep e).
Proof. destruct e; cbn; apply _. Defined.

Lemma parseFramesIO_kind i frs : Forall isParserEffect (trace (parseFramesIO i frs)).
Proof.
  revert i. induction frs as [|fr later IH]; intros i; [constructor|].
  cbn [parseFramesIO]. destruct (view fr) as [v|]; [|apply IH].
  destruct (frameRecs v) as [|first rest]; cbn.
  - constructor; [exact I | apply IH].
  - repeat constructor.
Qed.

Lemma parserEffects_kind page attempt : Forall isParserEffect (parserEffects page attempt).
Proof. apply parseFramesIO_kind. Qed.

Lemma attemptEffects_kind page attempt : Forall isParserEffect (attemptEffects page attempt).
Proof.
  unfold attemptEffects. destruct (gridReady page attempt);
    [apply parserEffects_kind | constructor].
Qed.

Lemma filter_isSleep_parser (l : list effect) :
  Forall isParserEffect l -> filter isSleep l = [].
Proof.
  induction 1 as [|e l He _ IH]; [reflexivity|].
  rewrite filter_cons_False; [exact IH|]. destruct e; cbn in *; tauto.
Qed.

Lemma filter_isSleep_backoff j (l : list effect) :
  filter isSleep (backoff j :: l) = backoff j :: filter isSleep l.
Proof. apply filter_cons_True. exact I. Qed.


(** A frame that shows the grid with one row. *)
Definition bridgeFrame : Frame :=
  MkFrame (Some {| headerCells := ["Notice Title"; "Country"; "Due Date"];
                   firstRowCells := [];
                   rowLocs := [["Notice Title"; "Country"; "Due Date"];
                               ["Bridge Rehabilitation"; "Peru"; "15/03/2024"]] |})
          [].

(** A page that is ready from the second attempt on and shows its row in
    the third. *)
Definition slowPage : Page :=
  {| powerBIFrame := true;
     gridReady := fun attempt => bool_decide (2 <= attempt)%nat;
     frameAt := fun attempt =>
       if bool_decide (attempt = 3%nat) then bridgeFrame else headerOnlyFrame |}.


Lemma retryLoop_kind (page : Page) attempts rows :
  Forall (fun e => isSleep e \/ isParserEffect e) (trace (retryLoop page attempts rows)).
Proof.
  assert (Hparser : forall j, Forall (fun e => isSleep e \/ isParserEffect e)
                                (parserEffects page j)).
  { intros j. eapply Forall_impl; [apply parserEffects_kind|]. cbn. tauto. }
  revert rows. induction attempts as [|a later IH]; intros rows; [constructor|].
  rewrite retryLoop_step.
  destruct (gridReady page a); cbn [negb].
  - destruct (bool_decide (tableRows page a = [])); cbn [negb].
    + destruct (bool_decide (a < RETRIES)%nat);
        cbn; apply Forall_app; (split; [apply Hparser|]).
      * constructor; [left; exact I | apply IH].
      * apply IH.
    + cbn. rewrite app_nil_r. apply Hparser.
  - destruct (bool_decide (a = RETRIES)); [constructor|].
    constructor; [left; exact I | apply IH].
Qed.

(** The sleeps of the loop, attempt by attempt. *)
Lemma retryLoop_sleeps_step (page : Page) a later rows :
  filter isSleep (trace (retryLoop page (a :: later) rows)) =
  if negb (gridReady page a) then
    if bool_decide (a = RETRIES) then []
    else backoff a :: filter isSleep (trace (retryLoop page later rows))
  else if negb (bool_decide (tableRows page a = [])) then []
  else (if bool_decide (a < RETRIES)%nat then [backoff a] else []) ++
       filter isSleep (trace (retryLoop page later (tableRows page a))).
Proof.
  assert (Hf := filter_isSleep_parser _ (parserEffects_kind page a)).
  rewrite retryLoop_step.
  destruct (gridReady page a); cbn [negb].
  - destruct (bool_decide (tableRows page a = [])); cbn [negb].
    + destruct (bool_decide (a < RETRIES)%nat); cbn -[filter];
        rewrite filter_app, Hf; cbn [app]; [apply filter_isSleep_backoff | reflexivity].
    + cbn -[filter]. rewrite app_nil_r. exact Hf.
  - destruct (bool_decide (a = RETRIES)); [reflexivity|].
    cbn -[filter]. apply filter_isSleep_backoff.
Qed.

(** X8. Whatever the page does, the retry loop sleeps at most twice, 1500 ms
    after the first attempt and 3000 ms after the second, and never after
    the last; whatever else it leaves is the parser's. *)
Theorem retryLoop_sleeps_at_most_twice (page : Page) :
  filter isSleep (trace (retryLoop page (seq 1 RETRIES) []))
    `prefix_of` [Sleep 1500; Sleep 3000] /\
  Forall (fun e => isSleep e \/ isParserEffect e) (trace (retryLoop page (seq 1 RETRIES) [])).
Proof.
  split; [|apply retryLoop_kind].
  unfold RETRIES. cbn [seq]. rewrite !retryLoop_sleeps_step. unfold RETRIES, backoff.
  cbn [retryLoop mret proc_ret trace filter list_filter].
  destruct (gridReady page 1), (bool_decide (tableRows page 1 = [])),
           (gridReady page 2), (bool_decide (tableRows page 2 = [])),
           (gridReady page 3), (bool_decide (tableRows page 3 = []));
    cbn [negb]; repeat case_bool_decide; try lia; cbn [app];
    (eexists; cbn [app]; reflexivity).
Qed.

(** ** More on texts *)

Lemma digit_is_plain c :
  isDigit c = true ->
  isSpace c = false /\ Ascii.eqb c "/" = false /\ Ascii.eqb c "." = false /\
  Ascii.eqb c "-" = false /\ Ascii.eqb c "+" = false /\ Ascii.eqb c ":" = false /\
  0 <= code c - 48 <= 9.
Proof.
  intros H. destruct c as [[] [] [] [] [] [] [] []];
    vm_compute in H; try discriminate H; vm_compute; intuition discriminate.
Qed.

Lemma smap_append f (a b : string) : smap f (a +:+ b) = smap f a +:+ smap f b.
Proof. induction a as [|c a IH]; [reflexivity|]. rewrite !append_cons. cbn [smap]. rewrite IH. reflexivity. Qed.

Lemma smap_fixed f p (s : string) :
  (forall c, p c = true -> f c = c) -> sforall p s = true -> smap f s = s.
Proof.
  intros Hf. induction s as [|c s IH]; [reflexivity|].
  cbn [sforall smap]. intros [Hc Hs]%andb_true_iff. rewrite (Hf c Hc), IH by exact Hs. reflexivity.
Qed.

Lemma trimEnd_spacefree s : sforall (fun c => negb (isSpace c)) s = true -> trimEnd s = s.
Proof.
  induction s as [|c s IH]; [reflexivity|].
  cbn [sforall trimEnd]. intros [Hc Hs]%andb_true_iff. rewrite IH by exact Hs.
  apply negb_true_iff in Hc. rewrite Hc. destruct s; reflexivity.
Qed.

Lemma trim_spacefree s : sforall (fun c => negb (isSpace c)) s = true -> trim s = s.
Proof.
  intros Hs. unfold trim.
  assert (Hstart : trimStart s = s).
  { destruct s as [|c s]; [reflexivity|]. cbn [sforall] in Hs.
    apply andb_true_iff in Hs as [Hc _]. apply negb_true_iff in Hc.
    cbn [trimStart]. rewrite Hc. reflexivity. }
  rewrite Hstart. apply trimEnd_spacefree, Hs.
Qed.

Lemma splitOn_sepfree sep s :
  sforall (fun c => negb (sep c)) s = true -> splitOn sep s = [s].
Proof.
  induction s as [|c s IH]; [reflexivity|].
  cbn [sforall splitOn]. intros [Hc Hs]%andb_true_iff. apply negb_true_iff in Hc.
  rewrite Hc, IH by exact Hs. reflexivity.
Qed.

Lemma splitOn_at_sep sep (a b : string) c :
  sforall (fun c => negb (sep c)) a = true -> sep c = true ->
  splitOn sep (a +:+ String c b) = a :: splitOn sep b.
Proof.
  intros Ha Hc. induction a as [|x a IH].
  - rewrite append_nil_l. cbn [splitOn]. rewrite Hc. reflexivity.
  - cbn [sforall] in Ha. apply andb_true_iff in Ha as [Hx Ha]. apply negb_true_iff in Hx.
    rewrite append_cons. cbn [splitOn]. rewrite Hx, IH by exact Ha. reflexivity.
Qed.

Lemma span_all p s : sforall p s = true -> span p s = (s, "").
Proof.
  induction s as [|c s IH]; [reflexivity|].
  cbn [sforall span]. intros [Hc Hs]%andb_true_iff. rewrite Hc, IH by exact Hs. reflexivity.
Qed.

Lemma digitsValue_append acc (a b : string) :
  digitsValue acc (a +:+ b) = digitsValue (digitsValue acc a) b.
Proof.
  revert acc. induction a as [|c a IH]; intros acc; [reflexivity|].
  rewrite append_cons. cbn [digitsValue]. apply IH.
Qed.

Lemma code_digitChar n : code (digitChar n) = 48 + n mod 10.
Proof.
  unfold digitChar. pose proof (Z.mod_pos_bound n 10 eq_refl) as Hb.
  assert (Hk : exists k, n mod 10 = Z.of_nat k /\ (k < 10)%nat).
  { exists (Z.to_nat (n mod 10)). lia. }
  destruct Hk as (k & -> & Hk).
  do 10 (destruct k as [|k]; [reflexivity|]). lia.
Qed.

(** The digits that [pad] writes read back as the number, modulo the
    width. *)
Lemma digitsValue_pad w n acc :
  digitsValue acc (pad w n) = acc * 10 ^ Z.of_nat w + n mod 10 ^ Z.of_nat w.
Proof.
  revert n acc. induction w as [|w IH]; intros n acc.
  - cbn [pad digitsValue]. change (10 ^ Z.of_nat 0) with 1. rewrite Z.mod_1_r. lia.
  - cbn [pad]. rewrite digitsValue_append, IH. cbn [digitsValue].
    rewrite code_digitChar.
    replace (Z.of_nat (S w)) with (1 + Z.of_nat w) by lia.
    rewrite Z.pow_add_r by lia. change (10 ^ 1) with 10.
    pose proof (Z.pow_pos_nonneg 10 (Z.of_nat w) ltac:(lia) ltac:(lia)) as Hp.
    rewrite (Z.rem_mul_r n 10 (10 ^ Z.of_nat w)) by lia. lia.
Qed.

Lemma sforall_pad_digit w n : sforall isDigit (pad w n) = true.
Proof.
  revert n. induction w as [|w IH]; intros n; [reflexivity|].
  cbn [pad]. rewrite sforall_append, IH. cbn [sforall andb].
  rewrite digitChar_isDigit. reflexivity.
Qed.

Lemma parseInt10_digits s :
  truthy s = true -> sforall isDigit s = true ->
  parseInt10 s = roundDouble (digitsValue 0 s) 0.
Proof.
  intros Hne Hs. destruct s as [|c s]; [discriminate Hne|].
  pose proof Hs as Hs'. cbn [sforall] in Hs'. apply andb_true_iff in Hs' as [Hc _].
  unfold parseInt10. cbn [trimStart].
  destruct (digit_is_plain c Hc) as (Hsp & _ & _ & Hm & Hp & _).
  rewrite Hsp.
  assert (Hsign : match String c s with
                  | String "-" r => (true, r)
                  | String "+" r => (false, r)
                  | _ => (false, String c s)
                  end = (false, String c s)).
  { destruct c as [[] [] [] [] [] [] [] []]; try reflexivity;
      vm_compute in Hm; vm_compute in Hp; discriminate. }
  rewrite Hsign, (span_all _ _ Hs). reflexivity.
Qed.

Lemma small_is_finite v : 0 <= v < 10 ^ 300 -> roundDouble v 0 = Finite v 0.
Proof.
  intros Hv. unfold roundDouble.
  assert (Hlim : 10 ^ 300 < doubleLimit) by (vm_compute; reflexivity).
  change (10 ^ Z.of_nat 0) with 1.
  destruct (Z.leb_spec (doubleLimit * 1) (Z.abs v)); [lia | reflexivity].
Qed.

(** ** More on dates *)

(** Three numbers written with a separator between them. *)
Definition threeNumbers (sep : ascii) (a b c : string) : string :=
  a +:+ String sep (b +:+ String sep c).

(** The ISO text of a date. *)
Definition isoText (y m d : Z) : string := threeNumbers "-" (pad 4 y) (pad 2 m) (pad 2 d).

Definition isDateMark (c : ascii) : bool :=
  Ascii.eqb c "-" || Ascii.eqb c "/" || Ascii.eqb c ".".

Lemma sforall_digits_weaken (p : ascii -> bool) s :
  (forall c, isDigit c = true -> p c = true) -> sforall isDigit s = true -> sforall p s = true.
Proof. intros Hp. apply sforall_impl, Hp. Qed.

Lemma parseInt10_pad w n :
  (w < 300)%nat -> parseInt10 (pad (S w) n) = Finite (n mod 10 ^ Z.of_nat (S w)) 0.
Proof.
  intros Hw. rewrite parseInt10_digits by (apply pad_succ_truthy || apply sforall_pad_digit).
  rewrite digitsValue_pad. apply small_is_finite.
  pose proof (Z.mod_pos_bound n (10 ^ Z.of_nat (S w)) ltac:(apply Z.pow_pos_nonneg; lia)).
  assert (10 ^ Z.of_nat (S w) <= 10 ^ 300) by (apply Z.pow_le_mono_r; lia). lia.
Qed.

Lemma dateNums_threeNumbers sep wa wb wc a b c :
  isDateMark sep = true -> (wa < 300)%nat -> (wb < 300)%nat -> (wc < 300)%nat ->
  let text := threeNumbers sep (pad (S wa) a) (pad (S wb) b) (pad (S wc) c) in
  truthy text = true /\
  dateNums (dateText text)
  = [a mod 10 ^ Z.of_nat (S wa); b mod 10 ^ Z.of_nat (S wb); c mod 10 ^ Z.of_nat (S wc)].
Proof.
  intros Hsep Ha Hb Hc text. subst text. split.
  { unfold threeNumbers. apply truthy_append_l, pad_succ_truthy. }
  set (A := pad (S wa) a). set (B := pad (S wb) b). set (C := pad (S wc) c).
  assert (HA : sforall isDigit A = true) by apply sforall_pad_digit.
  assert (HB : sforall isDigit B = true) by apply sforall_pad_digit.
  assert (HC : sforall isDigit C = true) by apply sforall_pad_digit.
  assert (Hfree : forall p : ascii -> bool,
            (forall ch, isDigit ch = true -> p ch = true) ->
            sforall p A = true /\ sforall p B = true /\ sforall p C = true).
  { intros p Hp. repeat split; apply (sforall_digits_weaken p); assumption. }
  assert (Hslash : dateText (threeNumbers sep A B C) = threeNumbers "/" A B C).
  { unfold dateText, threeNumbers.
    destruct (Hfree (fun c => negb (isSpace c))) as (SA & SB & SC).
    { intros ch Hch. destruct (digit_is_plain ch Hch) as (-> & _). reflexivity. }
    assert (Hsp : isSpace sep = false).
    { unfold isDateMark in Hsep.
      destruct (Ascii.eqb_spec sep "-") as [->|]; [reflexivity|].
      destruct (Ascii.eqb_spec sep "/") as [->|]; [reflexivity|].
      destruct (Ascii.eqb_spec sep ".") as [->|]; [reflexivity | discriminate Hsep]. }
    rewrite trim_spacefree
      by (rewrite sforall_append, SA; cbn [sforall andb]; rewrite Hsp, sforall_append, SB;
          cbn [sforall andb negb]; rewrite Hsp, SC; reflexivity).
    unfold replaceChar. rewrite !smap_append. cbn [smap]. rewrite !smap_append. cbn [smap].
    rewrite !(smap_fixed _ isDigit A), !(smap_fixed _ isDigit B), !(smap_fixed _ isDigit C);
      try assumption;
      try (intros ch Hch; destruct (digit_is_plain ch Hch) as (_ & _ & Hd & Hm & _);
           rewrite ?Hd, ?Hm; reflexivity).
    unfold isDateMark in Hsep.
    destruct (Ascii.eqb_spec sep "-") as [->|]; [reflexivity|].
    destruct (Ascii.eqb_spec sep "/") as [->|]; [reflexivity|].
    destruct (Ascii.eqb_spec sep ".") as [->|]; [reflexivity | discriminate Hsep]. }
  rewrite Hslash. unfold dateNums, threeNumbers.
  destruct (Hfree (fun c => negb (isDateSep c))) as (DA & DB & DC).
  { intros ch Hch. destruct (digit_is_plain ch Hch) as (Hs & Hd & _).
    unfold isDateSep. rewrite Hs, Hd. reflexivity. }
  rewrite (splitOn_at_sep _ A) by (exact DA || reflexivity).
  rewrite (splitOn_at_sep _ B) by (exact DB || reflexivity).
  rewrite (splitOn_sepfree _ C) by exact DC.
  rewrite !filter_cons_True by (unfold A, B, C; rewrite pad_succ_truthy; exact I).
  rewrite filter_nil. cbn [fmap list_fmap]. unfold A, B, C.
  rewrite !parseInt10_pad by assumption. reflexivity.
Qed.

Lemma inCalendar_bounds y m d :
  inCalendar y m d = true -> 1 <= m <= 12 /\ 1 <= d <= 31.
Proof.
  unfold inCalendar. intros Hcal.
  apply andb_true_iff in Hcal as [Hcal Hd2]. apply andb_true_iff in Hcal as [Hcal Hd1].
  apply andb_true_iff in Hcal as [Hm1 Hm2]. apply Z.leb_le in Hm1, Hm2, Hd1, Hd2.
  pose proof (daysInMonth_le (InLeapYear y) m). lia.
Qed.

(** A calendar date comes back as its ISO text, the year as [Date.UTC]
    takes it. *)
Lemma toISO_calendar_date_fullYear (h : Host) r a b c rest y m d :
  truthy r = true ->
  dateNums (dateText r) = a :: b :: c :: rest ->
  resolveYMD a b c = (y, m, d) ->
  0 <= fullYear y <= 9999 -> inCalendar (fullYear y) m d = true ->
  toISO h (Some r) = Return (Some (isoText (fullYear y) m d)).
Proof.
  intros Hr Hnums Hres Hy Hcal.
  rewrite toISO_returns. unfold toISO_value, structuredDate.
  rewrite Hr, Hnums, Hres. unfold Date_UTC.
  destruct (inCalendar_bounds _ _ _ Hcal) as [Hm Hd].
  assert (Hday : -800000 <= MakeDay (fullYear y) (m - 1) d <= 3000000).
  { unfold MakeDay.
    pose proof (daysBeforeMonth_bound (InLeapYear (fullYear y + (m - 1) / 12))
                  ((m - 1) mod 12)).
    unfold DayFromYear. Z.div_mod_to_equations. lia. }
  unfold TimeClip.
  replace (Z.abs (MakeDay (fullYear y) (m - 1) d * msPerDay) <=? maxTime) with true
    by (symmetry; apply Z.leb_le; unfold msPerDay, maxTime; lia).
  f_equal. f_equal. etrans; [apply (toISOString_date _ (fullYear y) m d); [|lia]|reflexivity].
  rewrite Z.div_mul by discriminate. apply civilFromDays_MakeDay. exact Hcal.
Qed.

Lemma toISO_threeNumbers (h : Host) sep wa wb wc a b c y m d :
  isDateMark sep = true -> (wa < 300)%nat -> (wb < 300)%nat -> (wc < 300)%nat ->
  0 <= a < 10 ^ Z.of_nat (S wa) -> 0 <= b < 10 ^ Z.of_nat (S wb) ->
  0 <= c < 10 ^ Z.of_nat (S wc) ->
  resolveYMD a b c = (y, m, d) ->
  0 <= fullYear y <= 9999 -> inCalendar (fullYear y) m d = true ->
  toISO h (Some (threeNumbers sep (pad (S wa) a) (pad (S wb) b) (pad (S wc) c)))
  = Return (Some (isoText (fullYear y) m d)).
Proof.
  intros Hsep Hwa Hwb Hwc Ha Hb Hc Hres Hy Hcal.
  destruct (dateNums_threeNumbers sep wa wb wc a b c Hsep Hwa Hwb Hwc) as [Ht Hnums].
  rewrite !Z.mod_small in Hnums by assumption.
  exact (toISO_calendar_date_fullYear h _ a b c [] y m d Ht Hnums Hres Hy Hcal).
Qed.

Lemma fullYear_same y : 100 <= y -> fullYear y = y.
Proof.
  intros Hy. unfold fullYear.
  replace ((0 <=? y) && (y <=? 99)) with false; [reflexivity|].
  symmetry. apply andb_false_iff. right. apply Z.leb_gt. lia.
Qed.

Lemma fullYear_two_digits y : 0 <= y <= 99 -> fullYear y = 1900 + y.
Proof.
  intros Hy. unfold fullYear.
  replace ((0 <=? y) && (y <=? 99)) with true; [reflexivity|].
  symmetry. apply andb_true_iff. split; apply Z.leb_le; lia.
Qed.

(** X10. An ISO date of the years 1901 to 2100, written with dashes, slashes
    or dots, comes back as the same date in ISO form: on its own output for
    those years [toISO] changes nothing. *)
Theorem toISO_fixes_iso_dates (h : Host) sep y m d :
  isDateMark sep = true -> 1900 < y <= 2100 -> inCalendar y m d = true ->
  toISO h (Some (threeNumbers sep (pad 4 y) (pad 2 m) (pad 2 d)))
    = Return (Some (isoText y m d)) /\
  toISO h (Some (isoText y m d)) = Return (Some (isoText y m d)).
Proof.
  intros Hsep Hy Hcal. destruct (inCalendar_bounds _ _ _ Hcal) as [Hm Hd].
  assert (Hres : resolveYMD y m d = (y, m, d)).
  { unfold resolveYMD.
    replace ((1900 <? y) && (y <=? 2100)) with true; [reflexivity|].
    symmetry. apply andb_true_iff. split; [apply Z.ltb_lt | apply Z.leb_le]; lia. }
  assert (Hall : forall s, isDateMark s = true ->
            toISO h (Some (threeNumbers s (pad 4 y) (pad 2 m) (pad 2 d)))
            = Return (Some (isoText y m d))).
  { intros s Hs. rewrite <- (fullYear_same y) at 2 by lia.
    apply (toISO_threeNumbers h s 3 1 1 y m d y m d); try assumption; try lia;
      rewrite ?fullYear_same by lia; try assumption;
      change (10 ^ Z.of_nat 4) with 10000; change (10 ^ Z.of_nat 2) with 100; lia. }
  split; [apply Hall, Hsep | apply (Hall "-"%char); reflexivity].
Qed.

Lemma toISO_fixes_iso_dates_witness :
  toISO bareHost (Some "2024.02.29") = Return (Some "2024-02-29") /\
  toISO bareHost (Some "2024-02-29") = Return (Some "2024-02-29").
Proof.
  refine (toISO_fixes_iso_dates bareHost "." 2024 2 29 eq_refl _ eq_refl). lia.
Defined.

(** X11. A calendar date written day first, DD/MM/YYYY with any of the three
    separators and a year from 100 to 9999, is read day first, also when
    day and month are both at most 12. *)
Theorem toISO_reads_day_first (h : Host) sep y m d :
  isDateMark sep = true -> 100 <= y <= 9999 -> inCalendar y m d = true ->
  toISO h (Some (threeNumbers sep (pad 2 d) (pad 2 m) (pad 4 y)))
  = Return (Some (isoText y m d)).
Proof.
  intros Hsep Hy Hcal. destruct (inCalendar_bounds _ _ _ Hcal) as [Hm Hd].
  assert (Hres : resolveYMD d m y = (y, m, d)).
  { unfold resolveYMD.
    replace ((1900 <? d) && (d <=? 2100)) with false
      by (symmetry; apply andb_false_iff; left; apply Z.ltb_ge; lia).
    destruct (12 <? d); [reflexivity|].
    replace (12 <? m) with false by (symmetry; apply Z.ltb_ge; lia). reflexivity. }
  rewrite <- (fullYear_same y) at 2 by lia.
  apply (toISO_threeNumbers h sep 1 1 3 d m y y m d); try assumption; try lia;
    rewrite ?fullYear_same by lia; try assumption;
    change (10 ^ Z.of_nat 4) with 10000; change (10 ^ Z.of_nat 2) with 100; lia.
Qed.

Lemma toISO_reads_day_first_witness :
  toISO bareHost (Some "03/04/2024") = Return (Some "2024-04-03").
Proof.
  refine (toISO_reads_day_first bareHost "/" 2024 4 3 eq_refl _ eq_refl). lia.
Defined.

(** X12. A date written month first, MM/DD/YYYY, is read month first only
    when its day is above 12. *)
Theorem toISO_reads_month_first_when_day_above_12 (h : Host) sep y m d :
  isDateMark sep = true -> 100 <= y <= 9999 -> inCalendar y m d = true -> 12 < d ->
  toISO h (Some (threeNumbers sep (pad 2 m) (pad 2 d) (pad 4 y)))
  = Return (Some (isoText y m d)).
Proof.
  intros Hsep Hy Hcal Hd12. destruct (inCalendar_bounds _ _ _ Hcal) as [Hm Hd].
  assert (Hres : resolveYMD m d y = (y, m, d)).
  { unfold resolveYMD.
    replace ((1900 <? m) && (m <=? 2100)) with false
      by (symmetry; apply andb_false_iff; left; apply Z.ltb_ge; lia).
    replace (12 <? m) with false by (symmetry; apply Z.ltb_ge; lia).
    replace (12 <? d) with true by (symmetry; apply Z.ltb_lt; lia). reflexivity. }
  rewrite <- (fullYear_same y) at 2 by lia.
  apply (toISO_threeNumbers h sep 1 1 3 m d y y m d); try assumption; try lia;
    rewrite ?fullYear_same by lia; try assumption;
    change (10 ^ Z.of_nat 4) with 10000; change (10 ^ Z.of_nat 2) with 100; lia.
Qed.

Lemma toISO_reads_month_first_when_day_above_12_witness :
  toISO bareHost (Some "03-15-2024") = Return (Some "2024-03-15").
Proof.
  refine (toISO_reads_month_first_when_day_above_12 bareHost "-" 2024 3 15
            eq_refl _ eq_refl _); lia.
Defined.

(** X13. A year written with two digits is taken as a year of the 1900s:
    DD/MM/YY gives 19YY-MM-DD. *)
Theorem toISO_two_digit_year_is_19xx (h : Host) sep yy m d :
  isDateMark sep = true -> 0 <= yy <= 99 -> inCalendar (1900 + yy) m d = true ->
  toISO h (Some (threeNumbers sep (pad 2 d) (pad 2 m) (pad 2 yy)))
  = Return (Some (isoText (1900 + yy) m d)).
Proof.
  intros Hsep Hy Hcal. destruct (inCalendar_bounds _ _ _ Hcal) as [Hm Hd].
  assert (Hres : resolveYMD d m yy = (yy, m, d)).
  { unfold resolveYMD.
    replace ((1900 <? d) && (d <=? 2100)) with false
      by (symmetry; apply andb_false_iff; left; apply Z.ltb_ge; lia).
    destruct (12 <? d); [reflexivity|].
    replace (12 <? m) with false by (symmetry; apply Z.ltb_ge; lia). reflexivity. }
  rewrite <- (fullYear_two_digits yy) by lia.
  apply (toISO_threeNumbers h sep 1 1 1 d m yy yy m d); try assumption; try lia;
    rewrite ?fullYear_two_digits by lia; try assumption;
    change (10 ^ Z.of_nat 2) with 100; lia.
Qed.

Lemma toISO_two_digit_year_is_19xx_witness :
  toISO bareHost (Some "15/03/24") = Return (Some "1924-03-15").
Proof.
  refine (toISO_two_digit_year_is_19xx bareHost "/" 24 3 15 eq_refl _ eq_refl). lia.
Defined.

(** ** The shape of a date *)

Lemma length_slice0 n (s : string) :
  String.length (slice0 n s) = Nat.min n (String.length s).
Proof.
  revert s. induction n as [|n IH]; intros [|c s]; try reflexivity.
  cbn [slice0 String.length]. rewrite IH. reflexivity.
Qed.

(** The characters of the first ten places of an ISO date and time. *)
Definition isDateChar (c : ascii) : bool :=
  isDigit c || Ascii.eqb c "-" || Ascii.eqb c "+".

Lemma sforall_pad_dateChar w n : sforall isDateChar (pad w n) = true.
Proof.
  apply (sforall_impl isDigit); [|apply sforall_pad_digit].
  intros c Hc. unfold isDateChar. rewrite Hc. reflexivity.
Qed.

Lemma sforall_cons p c (s : string) : sforall p (String c s) = p c && sforall p s.
Proof. reflexivity. Qed.

Lemma length_cons c (s : string) : String.length (String c s) = S (String.length s).
Proof. reflexivity. Qed.

Ltac date_shape :=
  change (slice0 0 ?x) with EmptyString;
  split;
  [ repeat rewrite ?length_append, ?length_cons, ?pad_length; reflexivity
  | repeat rewrite ?sforall_append, ?sforall_cons, ?sforall_pad_dateChar; reflexivity ].

Lemma isoDate_shape t :
  String.length (isoDate t) = 10%nat /\ sforall isDateChar (isoDate t) = true.
Proof.
  unfold isoDate, toISOString.
  destruct (civilFromDays (t / msPerDay)) as [[y m] d].
  rewrite !append_char.
  destruct ((0 <=? y) && (y <=? 9999)).
  - change 10%nat with (4 + 6)%nat. rewrite slice0_pad, (slice0_cons 5).
    change 5%nat with (2 + 3)%nat. rewrite slice0_pad, (slice0_cons 2).
    change (slice0 2) with (slice0 (2 + 0)). rewrite slice0_pad.
    date_shape.
  - assert (Hsign : exists c, isDateChar c = true /\
              (if y <? 0 then "-" else "+") +:+ pad 6 (Z.abs y) = String c (pad 6 (Z.abs y))).
    { destruct (y <? 0); eexists; (split; [|reflexivity]); reflexivity. }
    destruct Hsign as (c & Hc & ->). rewrite append_cons, (slice0_cons 9).
    change 9%nat with (6 + 3)%nat. rewrite slice0_pad, (slice0_cons 2).
    change (slice0 2) with (slice0 (2 + 0)). rewrite slice0_pad.
    change (slice0 0 ?x) with EmptyString. split.
    + repeat rewrite ?length_append, ?length_cons, ?pad_length. reflexivity.
    + rewrite sforall_cons, Hc.
      repeat rewrite ?sforall_append, ?sforall_cons, ?sforall_pad_dateChar. reflexivity.
Qed.

(** X14. A date that [toISO] returns is a text of exactly ten characters,
    each a digit, a dash or a plus sign; in particular it is never empty. *)
Theorem toISO_date_has_ten_characters (h : Host) raw date :
  toISO h raw = Return (Some date) ->
  String.length date = 10%nat /\ sforall isDateChar date = true.
Proof.
  rewrite toISO_returns. intros Hd. injection Hd as Hd. revert Hd.
  unfold toISO_value. destruct raw as [r|]; [|discriminate].
  destruct (truthy r); [|discriminate].
  destruct (structuredDate (dateText r)) as [t|].
  - intros Hd. injection Hd as <-. apply isoDate_shape.
  - destruct (Date_parse h (dateText r)) as [t|]; [|discriminate].
    intros Hd. injection Hd as <-. apply isoDate_shape.
Qed.

Lemma toISO_date_has_ten_characters_witness :
  String.length "2024-03-15" = 10%nat /\ sforall isDateChar "2024-03-15" = true.
Proof.
  apply (toISO_date_has_ten_characters bareHost (Some "15/03/2024")). reflexivity.
Defined.

(** ** More on numbers *)

Lemma span_spec p s :
  let '(a, b) := span p s in
  s = a +:+ b /\ sforall p a = true /\
  match b with String c _ => p c = false | EmptyString => True end.
Proof.
  induction s as [|c s IH]; [cbn; auto|].
  cbn [span]. destruct (p c) eqn:Hc.
  - destruct (span p s) as [a b]. destruct IH as (-> & Ha & Hb).
    rewrite append_cons. cbn [sforall]. rewrite Hc, Ha. auto.
  - rewrite append_nil_l. cbn. auto.
Qed.

Lemma digitsValue_bounds s acc :
  sforall isDigit s = true -> 0 <= acc ->
  0 <= digitsValue acc s < (acc + 1) * 10 ^ Z.of_nat (String.length s).
Proof.
  revert acc. induction s as [|c s IH]; intros acc Hs Hacc.
  - cbn. lia.
  - cbn [sforall] in Hs. apply andb_true_iff in Hs as [Hc Hs].
    destruct (digit_is_plain c Hc) as (_ & _ & _ & _ & _ & _ & Hv).
    cbn [digitsValue String.length].
    specialize (IH (acc * 10 + (code c - 48)) Hs ltac:(lia)).
    replace (Z.of_nat (S (String.length s))) with (1 + Z.of_nat (String.length s)) by lia.
    rewrite Z.pow_add_r by lia. change (10 ^ 1) with 10.
    pose proof (Z.pow_pos_nonneg 10 (Z.of_nat (String.length s)) ltac:(lia) ltac:(lia)).
    nia.
Qed.

Lemma roundDouble_nonneg m k :
  0 <= m -> match roundDouble m k with Finite m' _ => 0 <= m' | _ => True end.
Proof. intros Hm. unfold roundDouble. destruct (_ <=? _); [exact I | exact Hm]. Qed.

Lemma Number_nonneg t : match Number t with Finite m _ => 0 <= m | _ => True end.
Proof.
  unfold Number. destruct (isEmpty t); [lia|].
  pose proof (span_spec isDigit t) as Hsp. destruct (span isDigit t) as [ip rest].
  destruct Hsp as (_ & Hip & _).
  destruct rest as [|c fp].
  - apply roundDouble_nonneg, digitsValue_bounds; [exact Hip | lia].
  - destruct (Ascii.eqb_spec c ".") as [->|Hne].
    + destruct (sforall isDigit fp) eqn:Hfp; cbn [andb]; [|exact I].
      destruct (negb (isEmpty ip && isEmpty fp)); [|exact I].
      apply roundDouble_nonneg, digitsValue_bounds; [|lia].
      rewrite sforall_append, Hip, Hfp. reflexivity.
    + destruct c as [[] [] [] [] [] [] [] []]; try exact I. congruence.
Qed.

(** X15. What [toNum] returns is a finite number that is not negative: the
    sign of the text is stripped with the rest, so "-5" gives 5. *)
Theorem toNum_is_never_negative (v : option string) n :
  toNum v = Some n ->
  (exists m k, n = Finite m k /\ 0 <= m) /\ toNum (Some "-5") = Some (Finite 5 0).
Proof.
  intros Hn. split; [|reflexivity]. unfold toNum in Hn.
  destruct v as [s|]; [|discriminate].
  pose proof (Number_nonneg (sfilter isDigitOrDot s)) as Hnn.
  destruct (Number (sfilter isDigitOrDot s)) as [| |m k]; try discriminate.
  injection Hn as <-. eauto.
Qed.

Lemma toNum_is_never_negative_witness :
  exists m k, Finite 120050 2 = Finite m k /\ 0 <= m.
Proof.
  exact (proj1 (toNum_is_never_negative (Some "USD -1,200.50") (Finite 120050 2) eq_refl)).
Defined.

(** The number of dots of a text. *)
Definition dots (s : string) : nat := String.length (sfilter (fun c => Ascii.eqb c ".") s).

Lemma sfilter_forall p s : sforall p (sfilter p s) = true.
Proof.
  induction s as [|c s IH]; [reflexivity|].
  cbn [sfilter]. destruct (p c) eqn:Hc; [|exact IH].
  cbn [sforall]. rewrite Hc, IH. reflexivity.
Qed.

Lemma dots_append (a b : string) : dots (a +:+ b) = (dots a + dots b)%nat.
Proof.
  unfold dots. induction a as [|c a IH]; [reflexivity|].
  rewrite append_cons. cbn [sfilter]. destruct (Ascii.eqb c "."); cbn [String.length]; lia.
Qed.

Lemma dots_digits s : sforall isDigit s = true -> dots s = 0%nat.
Proof.
  unfold dots. induction s as [|c s IH]; [reflexivity|].
  cbn [sforall sfilter]. intros [Hc Hs]%andb_true_iff.
  destruct (digit_is_plain c Hc) as (_ & _ & -> & _). apply IH, Hs.
Qed.

Lemma digits_of_no_dots s :
  sforall isDigitOrDot s = true -> dots s = 0%nat -> sforall isDigit s = true.
Proof.
  unfold dots. induction s as [|c s IH]; [reflexivity|].
  cbn [sforall sfilter]. intros [Hc Hs]%andb_true_iff.
  unfold isDigitOrDot in Hc. destruct (Ascii.eqb c "."); [discriminate|].
  rewrite orb_false_r in Hc. rewrite Hc. intros Hd. apply IH; assumption.
Qed.

(** X16. On a text whose digits and dots number at most 300, [toNum] gives
    null in two cases only: the text holds two dots or more, or its digits
    and dots come to a lone dot.  Everything else is a number, the empty
    remainder being 0. *)
Theorem toNum_is_null_for_two_dots_or_lone_dot (s : string) :
  let t := sfilter isDigitOrDot s in
  (String.length t <= 300)%nat ->
  toNum (Some s) = None <-> (2 <= dots t)%nat \/ t = ".".
Proof.
  intros t Hlen. unfold toNum. fold t.
  assert (Halpha : sforall isDigitOrDot t = true) by apply sfilter_forall.
  assert (Hlim : 10 ^ 300 < doubleLimit) by (vm_compute; reflexivity).
  assert (Hfin : forall m k, 0 <= m < 10 ^ 300 -> roundDouble m k = Finite m k).
  { intros m k Hm. unfold roundDouble.
    pose proof (Z.pow_pos_nonneg 10 (Z.of_nat k) ltac:(lia) ltac:(lia)) as Hk.
    assert (Hpos : 0 <= doubleLimit) by (vm_compute; discriminate).
    pose proof (Z.mul_le_mono_nonneg_l 1 (10 ^ Z.of_nat k) doubleLimit Hpos ltac:(lia)).
    destruct (Z.leb_spec (doubleLimit * 10 ^ Z.of_nat k) (Z.abs m)) as [Hle|]; [|reflexivity].
    exfalso. rewrite Z.mul_1_r in H. rewrite Z.abs_eq in Hle by lia.
    generalize dependent (doubleLimit * 10 ^ Z.of_nat k). generalize dependent (10 ^ 300).
    generalize dependent doubleLimit. intros. lia. }
  assert (Hval : forall u, sforall isDigit u = true -> (String.length u <= 300)%nat ->
                           0 <= digitsValue 0 u < 10 ^ 300).
  { intros u Hu Hl. pose proof (digitsValue_bounds u 0 Hu ltac:(lia)) as Hb.
    assert (10 ^ Z.of_nat (String.length u) <= 10 ^ 300) by (apply Z.pow_le_mono_r; lia).
    lia. }
  unfold Number. destruct t as [|c0 t0] eqn:Et.
  { cbn. split; [discriminate|]. intros [H|H]; [cbn in H; lia | discriminate H]. }
  cbn [isEmpty]. rewrite <- Et in *. clear Et c0 t0.
  pose proof (span_spec isDigit t) as Hsp. destruct (span isDigit t) as [ip rest].
  destruct Hsp as (Ht & Hip & Hrest).
  assert (Hlens : (String.length ip + String.length rest <= 300)%nat).
  { rewrite Ht, length_append in Hlen. exact Hlen. }
  destruct rest as [|c fp].
  - rewrite Hfin by (apply Hval; [exact Hip | lia]). cbn.
    split; [discriminate|]. intros [H|H].
    + rewrite Ht, dots_append, (dots_digits ip Hip) in H. cbn in H. lia.
    + rewrite Ht in H. destruct ip as [|c ip]; [discriminate H|].
      cbn in H. injection H as -> _. discriminate Hip.
  - assert (Hc : c = "."%char).
    { rewrite Ht, sforall_append in Halpha. apply andb_true_iff in Halpha as [_ Hr].
      cbn [sforall] in Hr. apply andb_true_iff in Hr as [Hc _].
      unfold isDigitOrDot in Hc. rewrite Hrest in Hc. cbn [orb] in Hc.
      apply Ascii.eqb_eq in Hc. exact Hc. }
    subst c.
    assert (Hfp : sforall isDigitOrDot fp = true).
    { rewrite Ht, sforall_append in Halpha. apply andb_true_iff in Halpha as [_ Hr].
      cbn [sforall] in Hr. apply andb_true_iff in Hr as [_ Hr]. exact Hr. }
    assert (Hdots : dots t = S (dots fp)).
    { rewrite Ht, dots_append, (dots_digits ip Hip). reflexivity. }
    destruct (sforall isDigit fp) eqn:Hdig; cbn [andb].
    + destruct ip as [|ci ip'], fp as [|cf fp']; cbn [isEmpty andb negb].
      * cbn. split; [intros _; right; exact Ht | reflexivity].
      * rewrite Hfin by (apply Hval;
          [exact Hdig | rewrite length_append; cbn [String.length] in Hlens |- *; lia]). cbn.
        split; [discriminate|]. intros [H|H].
        -- rewrite Hdots, (dots_digits _ Hdig) in H. lia.
        -- rewrite Ht in H. discriminate H.
      * rewrite Hfin by (apply Hval;
          [rewrite sforall_append, Hip; reflexivity
          |rewrite length_append; cbn [String.length] in Hlens |- *; lia]). cbn.
        split; [discriminate|]. intros [H|H].
        -- rewrite Hdots in H. cbn in H. lia.
        -- rewrite Ht, append_cons in H. injection H as _ Htl.
           destruct ip'; rewrite ?append_nil_l, ?append_cons in Htl; discriminate Htl.
      * rewrite Hfin by (apply Hval;
          [rewrite sforall_append, Hip, Hdig; reflexivity
          |rewrite length_append; cbn [String.length] in Hlens |- *; lia]). cbn.
        split; [discriminate|]. intros [H|H].
        -- rewrite Hdots, (dots_digits _ Hdig) in H. lia.
        -- rewrite Ht, append_cons in H. injection H as _ Htl.
           destruct ip'; rewrite ?append_nil_l, ?append_cons in Htl; discriminate Htl.
    + cbn. split; [|reflexivity]. intros _. left. rewrite Hdots.
      destruct (dots fp) eqn:Hz; [|lia].
      rewrite (digits_of_no_dots fp Hfp Hz) in Hdig. discriminate Hdig.
Qed.

Lemma toNum_is_null_for_two_dots_or_lone_dot_witness :
  toNum (Some "v1.2.3") = None.
Proof.
  apply (toNum_is_null_for_two_dots_or_lone_dot "v1.2.3").
  - vm_compute. lia.
  - left. vm_compute. lia.
Defined.

(** ** More on the classifiers *)

Lemma startsWith_append (w b : string) : startsWith w (w +:+ b) = true.
Proof.
  induction w as [|c w IH]; [reflexivity|].
  rewrite append_cons. cbn [startsWith]. rewrite Ascii.eqb_refl, IH. reflexivity.
Qed.

Lemma startsWith_split (w s : string) :
  startsWith w s = true -> exists b, s = w +:+ b.
Proof.
  revert s. induction w as [|c w IH]; intros s Hs.
  - exists s. reflexivity.
  - destruct s as [|c' s]; [discriminate Hs|]. cbn [startsWith] in Hs.
    apply andb_true_iff in Hs as [Hc Hs]. apply Ascii.eqb_eq in Hc as ->.
    destruct (IH s Hs) as (b & ->). exists b. reflexivity.
Qed.

(** [includes w s] says that [w] is a piece of [s]. *)
Lemma includes_iff (w s : string) :
  includes w s = true <-> exists a b, s = a +:+ w +:+ b.
Proof.
  split.
  - induction s as [|c s IH]; cbn [includes]; intros H.
    + rewrite orb_false_r in H. destruct (startsWith_split _ _ H) as (b & ->).
      exists "", b. reflexivity.
    + apply orb_true_iff in H as [H|H].
      * destruct (startsWith_split _ _ H) as (b & ->). exists "", b. reflexivity.
      * destruct (IH H) as (a & b & ->). exists (String c a), b. reflexivity.
  - intros (a & b & ->). induction a as [|c a IH].
    + rewrite append_nil_l. destruct (w +:+ b) eqn:E; cbn [includes]; rewrite <- E;
        rewrite startsWith_append; reflexivity.
    + rewrite append_cons. cbn [includes]. rewrite IH. apply orb_true_r.
Qed.

(** X18. A title is tagged Energy exactly when, letter case apart, "energy",
    "power" or "electric" is a piece of it, wherever it stands and whatever
    else the title holds. *)
Theorem inferSectors_energy_iff (title : string) :
  inferSectors title = ["Energy"] <->
  exists a w b,
    w ∈ ["energy"; "power"; "electric"] /\ toLowerCase title = a +:+ w +:+ b.
Proof.
  unfold inferSectors.
  assert (Hany : anyWord ["energy"; "power"; "electric"] (toLowerCase title) = true <->
                 exists a w b, w ∈ ["energy"; "power"; "electric"] /\
                               toLowerCase title = a +:+ w +:+ b).
  { unfold anyWord. rewrite existsb_exists. split.
    - intros (w & Hw & Hinc). apply includes_iff in Hinc as (a & b & Hs).
      exists a, w, b. split; [apply list_elem_of_In, Hw | exact Hs].
    - intros (a & w & b & Hw & Hs). exists w. split; [apply list_elem_of_In, Hw|].
      apply includes_iff. eauto. }
  rewrite <- Hany.
  destruct (anyWord ["energy"; "power"; "electric"] (toLowerCase title)).
  - split; reflexivity.
  - split; [|discriminate].
    repeat match goal with
           | |- context [anyWord ?ws ?t] => destruct (anyWord ws t)
           end; discriminate.
Qed.

Lemma inferSectors_energy_iff_witness :
  inferSectors "Hydropower Plant Upgrade" = ["Energy"].
Proof.
  apply inferSectors_energy_iff. exists "hydro", "power", " plant upgrade".
  split; [|reflexivity]. apply list_elem_of_further, list_elem_of_here.
Defined.

(** ** More on the country table *)

Lemma trimEnd_idempotent s : trimEnd (trimEnd s) = trimEnd s.
Proof.
  induction s as [|c s IH]; [reflexivity|].
  cbn [trimEnd]. destruct (trimEnd s) as [|c' s'] eqn:E.
  - destruct (isSpace c) eqn:Hc; [reflexivity|]. cbn [trimEnd]. rewrite Hc. reflexivity.
  - cbn [trimEnd]. cbn [trimEnd] in IH. rewrite IH. reflexivity.
Qed.

Lemma trimEnd_head c s :
  isSpace c = false -> exists r, trimEnd (String c s) = String c r.
Proof.
  intros Hc. cbn [trimEnd]. destruct (trimEnd s); [rewrite Hc|]; eauto.
Qed.

Lemma trimStart_shape s :
  trimStart s = "" \/ exists c r, trimStart s = String c r /\ isSpace c = false.
Proof.
  induction s as [|c s IH]; [left; reflexivity|].
  cbn [trimStart]. destruct (isSpace c) eqn:Hc; [exact IH|]. right. eauto.
Qed.

Lemma trim_idempotent s : trim (trim s) = trim s.
Proof.
  unfold trim. destruct (trimStart_shape s) as [->|(c & r & -> & Hc)]; [reflexivity|].
  destruct (trimEnd_head c r Hc) as (r' & E). rewrite E.
  cbn [trimStart]. rewrite Hc. rewrite <- E. apply trimEnd_idempotent.
Qed.

Lemma assoc_elem k l v : assoc k l = Some v -> (k, v) ∈ l.
Proof.
  induction l as [|[k' v'] l IH]; [discriminate|].
  cbn [assoc]. destruct (String.eqb_spec k k') as [->|_].
  - intros [= ->]. left.
  - intros H. right. apply IH, H.
Qed.

Lemma assoc_None_elem k l : assoc k l = None -> forall v, (k, v) ∉ l.
Proof.
  induction l as [|[k' v'] l IH]; [intros _ v Hv; inversion Hv|].
  cbn [assoc]. destruct (String.eqb_spec k k') as [->|Hne]; [discriminate|].
  intros H v Hv. apply elem_of_cons in Hv as [[= -> ->]|Hv]; [congruence|].
  exact (IH H v Hv).
Qed.

(** X20. The country code is looked up under the name without the white
    space around it, and letter for letter: a name gets a code exactly when
    the table lists it with that code, the code has two letters, and two
    names with the same code are the same name. *)
Theorem mapCountryToISO2_is_exact_on_trimmed_name (name : string) :
  mapCountryToISO2 (trim name) = mapCountryToISO2 name /\
  (forall code, mapCountryToISO2 name = Some (Own code) <->
                (trim name, code) ∈ countryTable) /\
  (forall code, mapCountryToISO2 name = Some (Own code) -> String.length code = 2%nat) /\
  (forall other code,
     mapCountryToISO2 name = Some (Own code) ->
     mapCountryToISO2 other = Some (Own code) -> trim other = trim name).
Proof.
  assert (Hown : forall s code, mapCountryToISO2 s = Some (Own code) <->
                                assoc (trim s) countryTable = Some code).
  { intros s code. unfold mapCountryToISO2.
    destruct (assoc (trim s) countryTable) as [v|].
    - split; intros [= ->]; reflexivity.
    - destruct (bool_decide _); split; discriminate. }
  assert (Hcodes : Forall (fun e => String.length e.2 = 2%nat) countryTable)
    by (repeat constructor).
  assert (Hinj : forall k1 k2 v, (k1, v) ∈ countryTable -> (k2, v) ∈ countryTable -> k1 = k2).
  { intros k1 k2 v H1 H2.
    assert (Hnd : NoDup (countryTable.*2)).
    { refine (bool_decide_unpack _ _). vm_compute. exact I. }
    apply list_elem_of_lookup in H1 as [i Hi], H2 as [j Hj].
    assert (i = j).
    { eapply NoDup_lookup; [exact Hnd | |].
      - rewrite list_lookup_fmap, Hi. reflexivity.
      - rewrite list_lookup_fmap, Hj. reflexivity. }
    subst j. congruence. }
  assert (Hfun : forall k v, (k, v) ∈ countryTable -> assoc k countryTable = Some v).
  { intros k v Hkv. destruct (assoc k countryTable) as [v'|] eqn:E.
    - apply assoc_elem in E.
      assert (Hnd : NoDup (countryTable.*1)).
      { refine (bool_decide_unpack _ _). vm_compute. exact I. }
      apply list_elem_of_lookup in Hkv as [i Hi], E as [j Hj].
      assert (i = j).
      { eapply NoDup_lookup; [exact Hnd | |].
        - rewrite list_lookup_fmap, Hi. reflexivity.
        - rewrite list_lookup_fmap, Hj. reflexivity. }
      subst j. congruence.
    - exfalso. exact (assoc_None_elem _ _ E v Hkv). }
  repeat apply conj.
  - unfold mapCountryToISO2. rewrite trim_idempotent. reflexivity.
  - intros code. rewrite Hown. split; [apply assoc_elem | apply Hfun].
  - intros code Hc. apply Hown, assoc_elem in Hc.
    rewrite Forall_forall in Hcodes. exact (Hcodes _ Hc).
  - intros other code H1 H2. apply Hown, assoc_elem in H1, H2.
    exact (Hinj _ _ _ H2 H1).
Qed.

Lemma mapCountryToISO2_is_exact_on_trimmed_name_witness :
  mapCountryToISO2 "  Costa Rica " = Some (Own "CR") /\
  mapCountryToISO2 "costa rica" = None.
Proof.
  split; [|reflexivity].
  apply (proj1 (proj2 (mapCountryToISO2_is_exact_on_trimmed_name "  Costa Rica "))).
  refine (bool_decide_unpack _ _). vm_compute. exact I.
Defined.

(** ** More on identifiers *)

Lemma truthy_length s : truthy s = true -> (1 <= String.length s)%nat.
Proof. destruct s; [discriminate | cbn; lia]. Qed.

(** X21. With a URL the identifier does not depend on the title, and it is
    either a slug, one to eighty characters out of letters, digits, dash,
    underscore and dot, or the first sixteen characters of the digest of
    the URL. *)
Theorem stableId_of_url_is_slug_or_digest (h : Host) (u title : string) :
  truthy u = true ->
  let ident := stableIdFromURLorTitle h (Some u) title in
  ident = stableIdFromURLorTitle h (Some u) "" /\
  ((sforall isSlugChar ident = true /\ (1 <= String.length ident <= 80)%nat) \/
   ident = slice0 16 (sha256 h u)).
Proof.
  intros Hu ident. subst ident. unfold stableIdFromURLorTitle, orNull. rewrite Hu.
  split; [reflexivity|].
  destruct (URL_parse h u) as [parts|]; [|right; reflexivity].
  set (lastSeg := orElse _ u).
  assert (Hshape : sforall isSlugChar (slice0 80 (sfilter isSlugChar lastSeg)) = true)
    by apply sforall_slice0, sfilter_forall.
  assert (Hlen := length_slice0 80 (sfilter isSlugChar lastSeg)).
  generalize dependent (slice0 80 (sfilter isSlugChar lastSeg)). intros slug Hshape Hlen.
  unfold orElse. destruct (truthy slug) eqn:Hslug; [left | right; reflexivity].
  split; [exact Hshape|]. split; [apply truthy_length, Hslug | lia].
Qed.

Lemma stableId_of_url_is_slug_or_digest_witness :
  stableIdFromURLorTitle bareHost (Some "https://example.org/n/42") "Bridge"
  = stableIdFromURLorTitle bareHost (Some "https://example.org/n/42") "".
Proof.
  exact (proj1 (stableId_of_url_is_slug_or_digest bareHost "https://example.org/n/42"
                  "Bridge" eq_refl)).
Defined.

(** The last non-empty piece of a path. *)
Definition lastSegment (path : string) : option string :=
  last (filter (fun p => truthy p) (splitOn (fun c => Ascii.eqb c "/") path)).

(** X22. Two URLs whose paths end in the same piece get the same identifier,
    whatever their hosts, their queries and the rest of their paths, as
    long as that piece keeps a character of the slug alphabet. *)
Theorem stableId_is_the_last_path_segment (h : Host) (u1 u2 t1 t2 seg : string) p1 p2 :
  truthy u1 = true -> truthy u2 = true ->
  URL_parse h u1 = Some p1 -> URL_parse h u2 = Some p2 ->
  lastSegment (pathname p1) = Some seg -> lastSegment (pathname p2) = Some seg ->
  truthy (sfilter isSlugChar seg) = true ->
  stableIdFromURLorTitle h (Some u1) t1 = slice0 80 (sfilter isSlugChar seg) /\
  stableIdFromURLorTitle h (Some u2) t2 = stableIdFromURLorTitle h (Some u1) t1.
Proof.
  intros Hu1 Hu2 Hp1 Hp2 Hs1 Hs2 Hslug.
  assert (Hone : forall u t p, truthy u = true -> URL_parse h u = Some p ->
                   lastSegment (pathname p) = Some seg ->
                   stableIdFromURLorTitle h (Some u) t = slice0 80 (sfilter isSlugChar seg)).
  { intros u t p Hu Hp Hs. unfold stableIdFromURLorTitle, orNull. rewrite Hu, Hp.
    unfold lastSegment in Hs. rewrite Hs.
    assert (Hseg : truthy seg = true) by (destruct seg; [discriminate Hslug | reflexivity]).
    unfold orElse. rewrite Hseg, Hseg.
    destruct (sfilter isSlugChar seg) as [|c r] eqn:E; [discriminate Hslug|]. reflexivity. }
  rewrite (Hone u1 t1 p1), (Hone u2 t2 p2) by assumption. split; reflexivity.
Qed.

(** A host whose URL parser takes the text after the first single slash
    as the path. *)
Definition pathHost : Host :=
  {| sha256 := fun s => s;
     URL_parse := fun u =>
       match splitOn (fun c => Ascii.eqb c "/") u with
       | _ :: _ :: _ :: rest => Some {| pathname := "/" +:+ join "/" rest; searchParams := "" |}
       | _ => None
       end;
     Date_parse := fun _ => None;
     clock := fun _ => 0 |}.

Lemma stableId_is_the_last_path_segment_witness :
  stableIdFromURLorTitle pathHost (Some "https://a.example/en/notice-7") "A"
  = slice0 80 (sfilter isSlugChar "notice-7") /\
  stableIdFromURLorTitle pathHost (Some "https://b.example/archive/2024/notice-7/") "B"
  = stableIdFromURLorTitle pathHost (Some "https://a.example/en/notice-7") "A".
Proof.
  apply (stableId_is_the_last_path_segment pathHost
           "https://a.example/en/notice-7" "https://b.example/archive/2024/notice-7/"
           "A" "B" "notice-7"
           {| pathname := "/en/notice-7"; searchParams := "" |}
           {| pathname := "/archive/2024/notice-7/"; searchParams := "" |});
    vm_compute; reflexivity.
Defined.

(** ** The parser: cell texts *)

Definition notSpace (c : ascii) : bool := negb (isSpace c).

(** No whitespace but the space, and no space after a space (or at the
    start, when [afterSpace] is set). *)
Fixpoint singleSpaced (afterSpace : bool) (s : string) : bool :=
  match s with
  | EmptyString => true
  | String c r =>
      if isSpace c then Ascii.eqb c " " && negb afterSpace && singleSpaced true r
      else singleSpaced false r
  end.

Lemma collapseFrom_keeps_text b s :
  sfilter notSpace (collapseFrom b s) = sfilter notSpace s.
Proof.
  revert b. induction s as [|c s IH]; intros b; [reflexivity|].
  cbn [collapseFrom sfilter]. unfold notSpace at 2. destruct (isSpace c) eqn:Hc; cbn [negb].
  - destruct b; [apply IH|]. cbn [sfilter]. apply IH.
  - cbn [sfilter]. unfold notSpace at 1. rewrite Hc. cbn [negb]. rewrite IH. reflexivity.
Qed.

Lemma collapseFrom_singleSpaced b s : singleSpaced b (collapseFrom b s) = true.
Proof.
  revert b. induction s as [|c s IH]; intros b; [reflexivity|].
  cbn [collapseFrom]. destruct (isSpace c) eqn:Hc.
  - destruct b; [apply IH|]. cbn [singleSpaced]. change (isSpace " ") with true.
    cbn [negb andb]. rewrite IH. reflexivity.
  - cbn [singleSpaced]. rewrite Hc. apply IH.
Qed.

Lemma singleSpaced_fixed b s : singleSpaced b s = true -> collapseFrom b s = s.
Proof.
  revert b. induction s as [|c s IH]; intros b; [reflexivity|].
  cbn [collapseFrom singleSpaced]. destruct (isSpace c) eqn:Hc.
  - intros [[Hsp Hb]%andb_true_iff Hs]%andb_true_iff.
    apply negb_true_iff in Hb. subst b. apply Ascii.eqb_eq in Hsp. subst c.
    rewrite (IH true Hs). reflexivity.
  - intros Hs. rewrite (IH false Hs). reflexivity.
Qed.

Lemma singleSpaced_weaken s : singleSpaced true s = true -> singleSpaced false s = true.
Proof.
  destruct s as [|c s]; [reflexivity|]. cbn [singleSpaced].
  destruct (isSpace c); [|tauto]. rewrite andb_false_r. discriminate.
Qed.

Lemma trimEnd_empty_sfilter s : trimEnd s = "" -> sfilter notSpace s = "".
Proof.
  induction s as [|c s IH]; [reflexivity|].
  cbn [trimEnd sfilter]. destruct (trimEnd s) as [|c' s']; [|discriminate].
  unfold notSpace at 1. destruct (isSpace c); [intros _; apply IH; reflexivity | discriminate].
Qed.

Lemma sfilter_truthy_collapse b s :
  truthy (sfilter notSpace s) = true -> truthy (collapseFrom b s) = true.
Proof.
  rewrite <- (collapseFrom_keeps_text b s).
  destruct (collapseFrom b s); [discriminate | reflexivity].
Qed.

Lemma trimEnd_fixed_text s : trimEnd s = s -> truthy s = true -> truthy (sfilter notSpace s) = true.
Proof.
  intros Hs Ht. destruct (sfilter notSpace s) eqn:E; [|reflexivity].
  induction s as [|c s IH]; [discriminate Ht|].
  cbn [trimEnd] in Hs. cbn [sfilter] in E. unfold notSpace at 1 in E.
  destruct (isSpace c) eqn:Hc; [|discriminate E]. cbn [negb] in E.
  destruct (trimEnd s) as [|c' s'] eqn:Es; [discriminate Hs|].
  injection Hs as Hs. destruct s as [|c2 s2]; [discriminate Es|].
  rewrite Hs in IH. apply IH; [reflexivity.. | exact E].
Qed.

Lemma collapseFrom_trimEnd b s : trimEnd s = s -> trimEnd (collapseFrom b s) = collapseFrom b s.
Proof.
  revert b. induction s as [|c s IH]; intros b Hs; [reflexivity|].
  assert (Hr : s = "" /\ isSpace c = false \/ trimEnd s = s /\ truthy s = true).
  { cbn [trimEnd] in Hs. destruct (trimEnd s) as [|c' s'] eqn:Es.
    - destruct (isSpace c); [discriminate Hs|]. injection Hs as <-. left. split; reflexivity.
    - injection Hs as <-. right. split; reflexivity. }
  destruct Hr as [[-> Hc]|[Hs' Ht]].
  { cbn [collapseFrom]. rewrite Hc. cbn [trimEnd]. rewrite Hc. reflexivity. }
  cbn [collapseFrom]. destruct (isSpace c) eqn:Hc.
  - assert (Hne : truthy (collapseFrom true s) = true)
      by (apply sfilter_truthy_collapse, trimEnd_fixed_text; assumption).
    destruct b; [apply IH, Hs'|].
    cbn [trimEnd]. rewrite (IH true Hs').
    destruct (collapseFrom true s); [discriminate Hne | reflexivity].
  - cbn [trimEnd]. rewrite (IH false Hs'). rewrite Hc.
    destruct (collapseFrom false s); reflexivity.
Qed.

Lemma trim_shape s :
  trim s = "" \/ exists c r, trim s = String c r /\ isSpace c = false.
Proof.
  unfold trim. destruct (trimStart_shape s) as [->|(c & r & -> & Hc)]; [left; reflexivity|].
  destruct (trimEnd_head c r Hc) as (r' & E). right. eauto.
Qed.

Lemma trim_fixed s :
  trimEnd s = s -> (s = "" \/ exists c r, s = String c r /\ isSpace c = false) -> trim s = s.
Proof.
  intros He [->|(c & r & -> & Hc)]; [reflexivity|].
  unfold trim. cbn [trimStart]. rewrite Hc. exact He.
Qed.

Lemma cellText_trimmed raw : trim (cellText raw) = cellText raw.
Proof.
  unfold cellText. apply trim_fixed.
  - apply collapseFrom_trimEnd. unfold trim. apply trimEnd_idempotent.
  - destruct (trim_shape raw) as [->|(c & r & -> & Hc)]; [left; reflexivity|].
    right. cbn [collapseFrom]. rewrite Hc. eauto.
Qed.

Lemma trimStart_keeps_text s : sfilter notSpace (trimStart s) = sfilter notSpace s.
Proof.
  induction s as [|c s IH]; [reflexivity|].
  cbn [trimStart]. destruct (isSpace c) eqn:Hc; [|reflexivity].
  cbn [sfilter]. unfold notSpace at 2. rewrite Hc. exact IH.
Qed.

Lemma trimEnd_keeps_text s : sfilter notSpace (trimEnd s) = sfilter notSpace s.
Proof.
  induction s as [|c s IH]; [reflexivity|].
  cbn [trimEnd]. destruct (trimEnd s) as [|c' s'] eqn:E.
  - cbn [sfilter] in *. rewrite <- IH.
    destruct (isSpace c) eqn:Hc; cbn [sfilter]; unfold notSpace; rewrite Hc; reflexivity.
  - cbn [sfilter] in *. rewrite IH. reflexivity.
Qed.


(** ** Row objects *)

Lemma setProperty_lookup obj k v k' :
  setProperty obj k v !! k' =
  if bool_decide (k = k' /\ k <> "__proto__") then Some v else obj !! k'.
Proof.
  unfold setProperty. destruct (String.eqb_spec k "__proto__") as [->|Hk].
  - rewrite bool_decide_eq_false_2 by tauto. reflexivity.
  - destruct (decide (k = k')) as [->|Hne].
    + rewrite bool_decide_eq_true_2 by tauto. apply lookup_insert_eq.
    + rewrite bool_decide_eq_false_2 by tauto. apply lookup_insert_ne, Hne.
Qed.

Lemma assignCells_other obj idx headers vals k :
  (forall j h, headers !! j = Some h -> columnKey h (idx + j) = k -> k = "__proto__") ->
  assignCells obj idx headers vals !! k = obj !! k.
Proof.
  revert obj idx. induction headers as [|h hs IH]; intros obj idx Hk; [reflexivity|].
  cbn [assignCells]. rewrite IH.
  - rewrite setProperty_lookup. case_bool_decide as Hd; [|reflexivity].
    destruct Hd as [He Hp]. exfalso. apply Hp. rewrite He.
    apply (Hk 0%nat h); [reflexivity|]. rewrite Nat.add_0_r. exact He.
  - intros j h' Hj. rewrite Nat.add_succ_l, <- Nat.add_succ_r. apply (Hk (S j) h'), Hj.
Qed.

Lemma assignCells_last obj idx headers vals i h :
  headers !! i = Some h ->
  columnKey h (idx + i) <> "__proto__" ->
  (forall j h', (i < j)%nat -> headers !! j = Some h' ->
     columnKey h' (idx + j) <> columnKey h (idx + i)) ->
  assignCells obj idx headers vals !! columnKey h (idx + i)
  = Some (default "" (vals !! (idx + i)%nat)).
Proof.
  revert obj idx i. induction headers as [|h0 hs IH]; intros obj idx i Hi Hp Hlast;
    [discriminate Hi|].
  cbn [assignCells]. destruct i as [|i].
  - injection Hi as ->. rewrite Nat.add_0_r in *. rewrite assignCells_other.
    + rewrite setProperty_lookup, bool_decide_eq_true_2 by tauto. reflexivity.
    + intros j h' Hj He. exfalso. apply (Hlast (S j) h'); [lia | exact Hj |].
      rewrite Nat.add_succ_r, <- Nat.add_succ_l. exact He.
  - rewrite Nat.add_succ_r, <- Nat.add_succ_l in *. apply IH; [exact Hi | exact Hp |].
    intros j h' Hij Hj. specialize (Hlast (S j) h' ltac:(lia) Hj).
    rewrite Nat.add_succ_r, <- Nat.add_succ_l in Hlast. exact Hlast.
Qed.

Lemma assignCells_elem obj idx headers vals k v :
  assignCells obj idx headers vals !! k = Some v ->
  obj !! k = Some v \/
  k <> "__proto__" /\
  exists i h, headers !! i = Some h /\ k = columnKey h (idx + i) /\
              v = default "" (vals !! (idx + i)%nat).
Proof.
  revert obj idx. induction headers as [|h hs IH]; intros obj idx; [left; assumption|].
  cbn [assignCells]. intros [Hobj|(Hp & i & h' & Hi & -> & ->)]%IH.
  - rewrite setProperty_lookup in Hobj. case_bool_decide as Hd; [|left; exact Hobj].
    destruct Hd as [<- Hp]. injection Hobj as <-. right. split; [exact Hp|].
    exists 0%nat, h. rewrite Nat.add_0_r. auto.
  - right. split; [exact Hp|]. exists (S i), h'.
    rewrite Nat.add_succ_r, <- Nat.add_succ_l. auto.
Qed.

(** X24. In the object of a row every property is a column: its name is the
    label of the column, or [col_] and the index when the label is empty,
    and its value is the cell at that index, the empty text when the row is
    too short.  The cells beyond the headers are dropped, no property is
    named [__proto__], and of two columns with one name the later one
    wins. *)
Theorem rowObject_last_label_wins (headers vals : list string) :
  (forall i h,
     headers !! i = Some h ->
     columnKey h i <> "__proto__" ->
     (forall j h', (i < j)%nat -> headers !! j = Some h' -> columnKey h' j <> columnKey h i) ->
     rowObject headers vals !! columnKey h i = Some (default "" (vals !! i))) /\
  (forall k v,
     rowObject headers vals !! k = Some v ->
     k <> "__proto__" /\
     exists i h, headers !! i = Some h /\ k = columnKey h i /\ v = default "" (vals !! i)).
Proof.
  split.
  - intros i h Hi Hp Hlast. exact (assignCells_last ∅ 0 headers vals i h Hi Hp Hlast).
  - intros k v [Hobj|Hcol]%assignCells_elem; [|exact Hcol].
    rewrite lookup_empty in Hobj. discriminate Hobj.
Qed.

Lemma rowObject_last_label_wins_witness :
  rowObject ["Title"; ""; "Title"] ["a"; "b"] !! columnKey "" 1 = Some "b" /\
  rowObject ["Title"; ""; "Title"] ["a"; "b"] !! columnKey "Title" 2 = Some "".
Proof.
  split.
  - apply (proj1 (rowObject_last_label_wins ["Title"; ""; "Title"] ["a"; "b"]) 1%nat "");
      [reflexivity | vm_compute; discriminate |].
    intros [|[|[|j]]] h' Hj; try lia.
    + intros [= <-]. vm_compute. discriminate.
    + intros [=].
  - apply (proj1 (rowObject_last_label_wins ["Title"; ""; "Title"] ["a"; "b"]) 2%nat "Title");
      [reflexivity | vm_compute; discriminate |].
    intros [|[|[|j]]] h' Hj; try lia. intros [=].
Defined.

(** ** Frames *)

Definition recsOf (f : Frame) : list RawRow := from_option frameRecs [] (view f).

Lemma parseFrames_spec frs :
  (parseFrames frs = [] /\ Forall (fun f => recsOf f = []) frs) \/
  (parseFrames frs <> [] /\
   exists before f after,
     frs = before ++ f :: after /\ Forall (fun g => recsOf g = []) before /\
     parseFrames frs = recsOf f).
Proof.
  induction frs as [|fr later IH]; [left; split; [reflexivity | constructor]|].
  cbn [parseFrames]. unfold recsOf at 1 3.
  assert (Hskip : recsOf fr = [] ->
    (parseFrames later = [] /\ Forall (fun f => recsOf f = []) (fr :: later)) \/
    (parseFrames later <> [] /\
     exists before f after,
       fr :: later = before ++ f :: after /\ Forall (fun g => recsOf g = []) before /\
       parseFrames later = recsOf f)).
  { intros Hfr. destruct IH as [[He Hall]|[Hne (before & f & after & -> & Hb & Hf)]].
    - left. split; [exact He | constructor; assumption].
    - right. split; [exact Hne|]. exists (fr :: before), f, after.
      split; [reflexivity|]. split; [constructor; assumption | exact Hf]. }
  destruct (view fr) as [v|] eqn:Hv; [|apply Hskip; unfold recsOf; rewrite Hv; reflexivity].
  case_bool_decide as Hrecs; cbn [negb].
  - apply Hskip. unfold recsOf. rewrite Hv. exact Hrecs.
  - right. split; [exact Hrecs|]. exists [], fr, later.
    split; [reflexivity|]. split; [constructor|]. unfold recsOf. rewrite Hv. reflexivity.
Qed.

(** X25. The parser returns the rows of one frame, never a mix: those of the
    first frame, in the order root, children, grandchildren, that yields a
    row.  It returns no row exactly when none of these frames yields one;
    a frame whose locators throw yields none. *)
Theorem parseAccessibleTable_rows_of_first_frame (rootFrame : Frame) :
  (parseAccessibleTable rootFrame = [] <->
     forall f, f ∈ frames rootFrame -> recsOf f = []) /\
  (parseAccessibleTable rootFrame <> [] ->
     exists before f after,
       frames rootFrame = before ++ f :: after /\
       Forall (fun g => recsOf g = []) before /\
       parseAccessibleTable rootFrame = recsOf f /\
       exists v, view f = Some v /\ parseAccessibleTable rootFrame = frameRecs v).
Proof.
  unfold parseAccessibleTable.
  destruct (parseFrames_spec (frames rootFrame))
    as [[He Hall]|[Hne (before & f & after & Hfr & Hb & Hf)]].
  - split; [|intros Hne; contradiction].
    split; [intros _; apply Forall_forall, Hall | intros _; exact He].
  - split.
    + split; [intros He; contradiction|]. intros Hall. exfalso. apply Hne.
      rewrite Hf. apply Hall. rewrite Hfr. apply elem_of_app. right. left.
    + intros _. exists before, f, after. split; [exact Hfr|]. split; [exact Hb|].
      split; [exact Hf|]. rewrite Hf in *. unfold recsOf in *.
      destruct (view f) as [v|]; [eauto | contradiction].
Qed.

Definition emptyFrame (children : list Frame) : Frame :=
  MkFrame (Some {| headerCells := []; firstRowCells := []; rowLocs := [] |}) children.

Definition gridFrame : Frame :=
  MkFrame (Some {| headerCells := ["Notice Title"; " URL "];
                   firstRowCells := [];
                   rowLocs := [["Notice Title"; "URL"]; ["Road  works"; "https://x.example/7"]] |})
          [].

Lemma parseAccessibleTable_rows_of_first_frame_witness :
  exists before f after,
    frames (emptyFrame [MkFrame None [gridFrame]]) = before ++ f :: after /\
    Forall (fun g => recsOf g = []) before /\
    parseAccessibleTable (emptyFrame [MkFrame None [gridFrame]]) = recsOf f /\
    exists v, view f = Some v /\
      parseAccessibleTable (emptyFrame [MkFrame None [gridFrame]]) = frameRecs v.
Proof.
  apply (proj2 (parseAccessibleTable_rows_of_first_frame (emptyFrame [MkFrame None [gridFrame]]))).
  intros Hrows%(f_equal length). vm_compute in Hrows. discriminate Hrows.
Defined.

(** ** From the grid to the record *)

Lemma columnKey_label h idx : truthy h = true -> columnKey h idx = h.
Proof. unfold columnKey, orElse. intros ->. reflexivity. Qed.

Lemma columnKey_generated idx : columnKey "" idx = "col_" +:+ pretty idx.
Proof. reflexivity. Qed.

Lemma columnKey_is_label h idx k :
  startsWith "col_" k = false -> columnKey h idx = k -> h = k.
Proof.
  unfold columnKey, orElse. destruct (truthy h); [auto|].
  intros Hk <-. rewrite !append_cons in Hk. cbn in Hk. discriminate Hk.
Qed.

Lemma rowRecord_cell headers cells i h raw :
  truthy h = true -> h <> "__proto__" ->
  headers !! i = Some h ->
  (forall j, (i < j)%nat -> headers !! j <> Some h) ->
  (forall j, (i < j)%nat -> h = "col_" +:+ pretty j -> headers !! j <> Some "") ->
  cells !! i = Some raw ->
  truthy (cellText raw) = true ->
  exists row, rowRecord headers cells = Some row /\ row !! h = Some (cellText raw) /\
              usable row h = true.
Proof.
  intros Hh Hp Hi Hlast Hgen Hc Hraw. unfold rowRecord.
  rewrite bool_decide_eq_false_2 by (intros ->; discriminate Hc).
  assert (Hv : (cellText <$> cells) !! i = Some (cellText raw))
    by (rewrite list_lookup_fmap, Hc; reflexivity).
  assert (Hsome : existsb truthy (cellText <$> cells) = true).
  { apply existsb_exists. exists (cellText raw). split; [|exact Hraw].
    apply list_elem_of_In, (list_elem_of_lookup_2 _ i), Hv. }
  rewrite Hsome. eexists. split; [reflexivity|].
  assert (Hrow : rowObject headers (cellText <$> cells) !! h = Some (cellText raw)).
  { pose proof (assignCells_last ∅ 0 headers (cellText <$> cells) i h Hi) as Hlookup.
    cbn [Nat.add] in Hlookup. rewrite (columnKey_label h i Hh), Hv in Hlookup.
    apply Hlookup; [exact Hp|]. intros j h' Hij Hj He.
    destruct (truthy h') eqn:Hh'.
    - rewrite columnKey_label in He by exact Hh'. subst h'. exact (Hlast j Hij Hj).
    - destruct h'; [|discriminate Hh']. exact (Hgen j Hij (eq_sym He) Hj). }
  split; [exact Hrow|]. unfold usable. rewrite Hrow, cellText_trimmed. exact Hraw.
Qed.

(** X26. A grid row reaches its record: when the grid has a column labelled
    [Notice Title] and the cell of a row in that column holds text, the row
    is kept by the parser and the title of its record is that text,
    trimmed and with every run of whitespace collapsed to one space. *)
Theorem grid_title_reaches_record (h : Host) (now : Z) (headers cells : list string)
    (i : nat) (raw : string) :
  headers !! i = Some "Notice Title" ->
  (forall j, (i < j)%nat -> headers !! j <> Some "Notice Title") ->
  cells !! i = Some raw ->
  truthy (cellText raw) = true ->
  exists row x,
    rowRecord headers cells = Some row /\
    normalizeRow h now row = Return x /\
    title x = cellText raw /\
    sector x = inferSectors (cellText raw).
Proof.
  intros Hi Hlast Hc Hraw.
  destruct (rowRecord_cell headers cells i "Notice Title" raw eq_refl) as (row & Hrow & Hcell & Hus);
    try assumption.
  { discriminate. }
  { intros j _ He. rewrite append_cons in He. discriminate He. }
  destruct (normalizeRow_fields h now row) as (x & Hx & Ht & _ & _ & _ & _ & _ & Hs).
  exists row, x. split; [exact Hrow|]. split; [exact Hx|].
  assert (Htitle : title x = cellText raw).
  { rewrite Ht. unfold titleAliases. cbn [headerPick]. rewrite Hus, Hcell.
    unfold orElse at 2. rewrite Hraw, cellText_trimmed. unfold orElse. rewrite Hraw. reflexivity. }
  split; [exact Htitle|]. rewrite Hs, Htitle. reflexivity.
Qed.

Lemma grid_title_reaches_record_witness :
  exists row x,
    rowRecord ["Country"; "Notice Title"] ["Peru"; "  Road   works "] = Some row /\
    normalizeRow bareHost 0 row = Return x /\
    title x = cellText "  Road   works " /\
    sector x = inferSectors (cellText "  Road   works ").
Proof.
  apply (grid_title_reaches_record bareHost 0 ["Country"; "Notice Title"] ["Peru"; "  Road   works "] 1); [reflexivity | | reflexivity | reflexivity].
  intros [|[|j]] Hj; [lia | lia | discriminate].
Defined.

(** ** The two generations of [headerPick] *)


(** X27. The later [headerPick] differs from the earlier one by skipping
    blank cells only: where the earlier one finds a cell that is not blank,
    the later one finds the same cell, and where the earlier one finds no
    cell, the later one finds none. *)
Theorem headerPick_generations_differ_on_blank_cells (row : RawRow) (key : string) :
  (forall v, V6Rows.headerPick row key = Some v -> truthy (trim v) = true ->
     headerPick row [key] = Some v) /\
  (V6Rows.headerPick row key = None -> headerPick row [key] = None).
Proof.
  unfold V6Rows.headerPick. cbn [headerPick]. unfold usableUpper, getUpper, usable.
  destruct (row !! key) as [a|].
  { split; [|discriminate]. intros v [= ->] ->. reflexivity. }
  assert (Hlower :
    (forall v, row !! toLowerCase key = Some v -> truthy (trim v) = true ->
       (if match row !! toLowerCase key with Some v' => truthy (trim v') | None => false end
        then row !! toLowerCase key else None) = Some v) /\
    (row !! toLowerCase key = None ->
       (if match row !! toLowerCase key with Some v' => truthy (trim v') | None => false end
        then row !! toLowerCase key else None) = None)).
  { destruct (row !! toLowerCase key) as [c|].
    - split; [|discriminate]. intros v [= ->] ->. reflexivity.
    - split; [discriminate | reflexivity]. }
  destruct (toUpperCase key) as [ku|]; [destruct (row !! ku) as [b|]|].
  - split; [|discriminate]. intros v [= ->] ->. reflexivity.
  - exact Hlower.
  - exact Hlower.
Qed.

Lemma headerPick_generations_differ_on_blank_cells_witness :
  headerPick {["TITLE" := "Road works"]} ["Title"] = Some "Road works".
Proof.
  apply (proj1 (headerPick_generations_differ_on_blank_cells
                  {["TITLE" := "Road works"]} "Title")); reflexivity.
Defined.
